(** * Quantization engine of MobileNet-in-FPGA: r09_advanced_quantization.py

    A shallow embedding of the four components of
    [src/r09_advanced_quantization.py]:

    - [LayerSensitivityAnalyzer]: [_quantize_weights], [_evaluate_accuracy],
      [analyze_layer], [analyze_all_layers], [generate_report];
    - [WeightClusteringQuantizer]: [quantize_layer_weights],
      [dequantize_weights], [save_to_fpga_format];
    - [logarithmic_quantize_activation], [logarithmic_dequantize_activation];
    - [generate_mixed_precision_config].

    The demonstration under [__main__] is not embedded.

    Conventions of the embedding.

    - Python [int] is [Z].  numpy floating-point numbers are modelled by
      exact rationals [Q], compared with [Qeq]: rounding error of binary
      floating point is outside the model, and so are infinities (division
      is used where the divisor is not zero) and the final
      [astype(np.float32)], which is the identity here.  Not-a-number, which
      numpy produces for the mean of an empty array, is the extra value of
      [pyfloat].
    - An exception is the name of its class.  A statement that can raise
      returns an [outcome]; methods of an object thread the object's
      state through the monad [M], and the state at the moment of a
      raise is kept, because the caller still observes the object then.
    - A Python [dict] is an association list in insertion order with
      in-place update of an existing key.
    - The collaborators that are not in the file (the Keras forward pass,
      scikit-learn's KMeans, [np.log2], the file system) are parameters of
      the sections that use them.  Small executable stand-ins are defined
      next to them to run the code on concrete inputs.
    - Console output is a list of events carrying the values formatted into
      the line; the wording of the line is not modelled. *)

From Stdlib Require Import List String Ascii Bool ZArith QArith Qround Qabs
  Qminmax Qpower DecimalString FinFun Lia Lqa.
Import ListNotations.

Local Open Scope string_scope.
Local Open Scope list_scope.
Local Open Scope Z_scope.

(* ================================================================== *)
(** ** Exceptions and the state-and-exception monad *)

Inductive exn : Type := Exn (cls : string).

Definition exn_class (e : exn) : string := let 'Exn c := e in c.

Definition ValueError : exn := Exn "ValueError".
Definition KeyError : exn := Exn "KeyError".
Definition OverflowError : exn := Exn "OverflowError".

Inductive outcome (A : Type) : Type :=
| Returned (a : A)
| Raised (e : exn).
Arguments Returned {A} a.
Arguments Raised {A} e.

Definition obind {A B : Type} (o : outcome A) (k : A -> outcome B) : outcome B :=
  match o with
  | Returned a => k a
  | Raised e => Raised e
  end.

Fixpoint omap {A B : Type} (f : A -> outcome B) (l : list A) : outcome (list B) :=
  match l with
  | [] => Returned []
  | x :: l' =>
      obind (f x) (fun y => obind (omap f l') (fun ys => Returned (y :: ys)))
  end.

Definition M (S A : Type) : Type := S -> outcome A * S.

Definition ret {S A : Type} (a : A) : M S A := fun s => (Returned a, s).
Definition bind {S A B : Type} (m : M S A) (k : A -> M S B) : M S B :=
  fun s =>
    match m s with
    | (Returned a, s') => k a s'
    | (Raised e, s') => (Raised e, s')
    end.
Definition get {S : Type} : M S S := fun s => (Returned s, s).
Definition lift {S A : Type} (o : outcome A) : M S A := fun s => (o, s).

Declare Scope py_scope.
Delimit Scope py_scope with py.
Notation "x <- m ;; k" := (bind m (fun x => k))
  (at level 100, m at next level, right associativity) : py_scope.
Notation "m ;;; k" := (bind m (fun _ => k))
  (at level 100, right associativity) : py_scope.

(* ================================================================== *)
(** ** Python dictionaries *)

Section Dict.
Context {K V : Type} (eqb : K -> K -> bool).

Fixpoint dict_get (d : list (K * V)) (k : K) : option V :=
  match d with
  | [] => None
  | (k', v) :: d' => if eqb k' k then Some v else dict_get d' k
  end.

(** [d[k] = v]: an existing key keeps its position. *)
Fixpoint dict_set (d : list (K * V)) (k : K) (v : V) : list (K * V) :=
  match d with
  | [] => [(k, v)]
  | (k', v') :: d' =>
      if eqb k' k then (k', v) :: d' else (k', v') :: dict_set d' k v
  end.

(** [d[k]] as an expression raises [KeyError] on a missing key. *)
Definition dict_index (d : list (K * V)) (k : K) : outcome V :=
  match dict_get d k with
  | Some v => Returned v
  | None => Raised KeyError
  end.
End Dict.

Definition keys {K V : Type} (d : list (K * V)) : list K := map fst d.

(** [range(lo, hi)] *)
Definition range (lo hi : Z) : list Z :=
  map (fun i => lo + Z.of_nat i) (seq 0 (Z.to_nat (hi - lo))).

(** [needle in haystack] on strings. *)
Fixpoint str_contains (needle haystack : string) : bool :=
  String.prefix needle haystack ||
  match haystack with
  | EmptyString => false
  | String _ rest => str_contains needle rest
  end.

(* ================================================================== *)
(** ** numpy arrays and numbers *)

Record ndarray (A : Type) : Type := NdArray {
  shape : list nat;
  data : list A   (* row-major; [length data] is the product of [shape] *)
}.
Arguments NdArray {A} shape data.
Arguments shape {A} n.
Arguments data {A} n.

Definition size {A : Type} (a : ndarray A) : Z := Z.of_nat (List.length (data a)).

Definition amap {A B : Type} (f : A -> B) (a : ndarray A) : ndarray B :=
  NdArray (shape a) (map f (data a)).

(** Equality of arrays of rationals, up to the representation of each
    fraction. *)
Definition array_eq (a b : ndarray Q) : Prop :=
  shape a = shape b /\ Forall2 Qeq (data a) (data b).

(** [a.min()] and [a.max()]: numpy raises [ValueError] on a zero-size
    array. *)
Definition np_min (a : ndarray Q) : outcome Q :=
  match data a with
  | [] => Raised ValueError
  | x :: xs => Returned (fold_left Qmin xs x)
  end.

Definition np_max (a : ndarray Q) : outcome Q :=
  match data a with
  | [] => Raised ValueError
  | x :: xs => Returned (fold_left Qmax xs x)
  end.

(** [np.round]: to the nearest integer, a tie to the even one. *)
Definition np_round (x : Q) : Z :=
  let f := Qfloor x in
  match Qcompare (x - inject_Z f) (1 # 2) with
  | Lt => f
  | Gt => f + 1
  | Eq => if Z.even f then f else f + 1
  end.

(** [.astype(np.int32)] of an integral float: the value when it fits; out
    of range the conversion is undefined in C and gives the most negative
    int32 on x86. *)
Definition astype_int32 (z : Z) : Z :=
  if (- 2 ^ 31 <=? z) && (z <? 2 ^ 31) then z else - 2 ^ 31.

(** [.astype(np.uint8)] and [.astype(np.uint16)]: reduction modulo the
    width. *)
Definition astype_uint8 (z : Z) : Z := z mod 2 ^ 8.
Definition astype_uint16 (z : Z) : Z := z mod 2 ^ 16.

(** The literal [1e-8]. *)
Definition eps : Q := 1 # 100000000.

(** [2 ** bits - 1]; a negative exponent gives a fraction, as in Python. *)
Definition levels (bits : Z) : Q := (2 ^ bits - 1)%Q.

(* ================================================================== *)
(** ** 1. LayerSensitivityAnalyzer._quantize_weights *)

Definition quant_scale (w_min w_max : Q) (bits : Z) : Q :=
  (levels bits / (w_max - w_min + eps))%Q.

Definition quant_code (w_min scale x : Q) : Z :=
  astype_int32 (np_round ((x - w_min) * scale)%Q).

Definition dequant (w_min scale : Q) (c : Z) : Q :=
  (inject_Z c / scale + w_min)%Q.

(** The body of the loop over [weights]. *)
Definition quantize_tensor (bits : Z) (w : ndarray Q) : outcome (ndarray Q) :=
  if Nat.eqb (List.length (shape w)) 0 then Returned w
  else
    obind (np_min w) (fun w_min =>
    obind (np_max w) (fun w_max =>
      let scale := quant_scale w_min w_max bits in
      let w_quant := amap (quant_code w_min scale) w in
      let w_dequant := amap (dequant w_min scale) w_quant in
      Returned w_dequant)).

Definition _quantize_weights (weights : list (ndarray Q)) (bits : Z)
  : outcome (list (ndarray Q)) :=
  omap (quantize_tensor bits) weights.

(* ================================================================== *)
(** ** 1. LayerSensitivityAnalyzer *)

(** A numpy float that may be not-a-number. *)
Inductive pyfloat : Type :=
| NaN
| Fin (q : Q).

Definition pf_mul (a : pyfloat) (q : Q) : pyfloat :=
  match a with
  | NaN => NaN
  | Fin x => Fin (x * q)
  end.

(** [a >= b]; every comparison with not-a-number is false. *)
Definition pf_geb (a b : pyfloat) : bool :=
  match a, b with
  | Fin x, Fin y => Qle_bool y x
  | _, _ => false
  end.

(** A value formatted into a printed line. *)
Inductive value : Type :=
| VStr (s : string)
| VInt (z : Z)
| VFloat (f : pyfloat).

Definition weights : Type := list (ndarray Q).

(** The Keras model: its layers by name, in declaration order, each with
    the list [get_weights()] returns. *)
Definition Model : Type := list (string * weights).

Definition curve : Type := list (Z * pyfloat).

Record layer_info : Type := LayerInfo {
  optimal_bits : Z;
  sensitivity_curve : curve
}.

Section Analyzer.
(** The inputs of the forward pass and [model.predict], which gives one
    row of class scores per input or raises. *)
Variable image : Type.
Variable predict : Model -> list image -> outcome (list (list Q)).

Record Analyzer : Type := MkAnalyzer {
  model : Model;
  test_images : list image;
  test_labels : list (list Q);
  layer_names : list string;
  sensitivity_map : list (string * layer_info);
  stdout : list (list value)
}.

Definition with_model (m : Model) (a : Analyzer) : Analyzer :=
  MkAnalyzer m (test_images a) (test_labels a) (layer_names a)
    (sensitivity_map a) (stdout a).
Definition with_sensitivity_map (sm : list (string * layer_info)) (a : Analyzer)
  : Analyzer :=
  MkAnalyzer (model a) (test_images a) (test_labels a) (layer_names a)
    sm (stdout a).
Definition with_stdout (out : list (list value)) (a : Analyzer) : Analyzer :=
  MkAnalyzer (model a) (test_images a) (test_labels a) (layer_names a)
    (sensitivity_map a) out.

Definition print (line : list value) : M Analyzer unit :=
  fun a => (Returned tt, with_stdout (stdout a ++ [line]) a).

(** [__init__] *)
Definition init (m : Model) (images : list image) (labels : list (list Q))
  : Analyzer :=
  MkAnalyzer m images labels
    (filter (str_contains "conv") (keys m)) [] [].

(** [self.model.get_layer(name).get_weights()]; Keras raises
    [ValueError] for an unknown layer. *)
Definition get_weights (layer_name : string) : M Analyzer weights :=
  fun a =>
    match dict_get String.eqb (model a) layer_name with
    | Some w => (Returned w, a)
    | None => (Raised ValueError, a)
    end.

(** [layer.set_weights(w)] on a layer obtained from [get_layer]. *)
Definition set_weights (layer_name : string) (w : weights) : M Analyzer unit :=
  fun a => (Returned tt, with_model (dict_set String.eqb (model a) layer_name w) a).

(** [np.argmax] of one row: the first position of the maximum. *)
Fixpoint argmax_from (best : Q) (best_i i : nat) (row : list Q) : nat :=
  match row with
  | [] => best_i
  | x :: row' =>
      if Qlt_le_dec best x then argmax_from x i (S i) row'
      else argmax_from best best_i (S i) row'
  end.

Definition argmax (row : list Q) : outcome nat :=
  match row with
  | [] => Raised ValueError
  | x :: row' => Returned (argmax_from x 0%nat 1%nat row')
  end.

(** [pred_labels == true_labels]: elementwise, a length-one side is
    broadcast, other length mismatches raise. *)
Definition labels_equal (p t : list nat) : outcome (list bool) :=
  if Nat.eqb (List.length p) (List.length t) then
    Returned (map (fun '(x, y) => Nat.eqb x y) (combine p t))
  else match p, t with
       | [x], _ => Returned (map (Nat.eqb x) t)
       | _, [y] => Returned (map (fun x => Nat.eqb x y) p)
       | _, _ => Raised ValueError
       end.

(** [np.mean] of booleans; not-a-number on an empty array. *)
Definition mean_bool (l : list bool) : pyfloat :=
  match l with
  | [] => NaN
  | _ => Fin (inject_Z (Z.of_nat (List.length (filter id l)))
              / inject_Z (Z.of_nat (List.length l)))
  end.

Definition accuracy_of (m : Model) (images : list image)
  (labels : list (list Q)) : outcome pyfloat :=
  obind (predict m images) (fun predictions =>
  obind (omap argmax predictions) (fun pred_labels =>
  obind (omap argmax labels) (fun true_labels =>
  obind (labels_equal pred_labels true_labels) (fun hits =>
  Returned (mean_bool hits))))).

Definition _evaluate_accuracy : M Analyzer pyfloat :=
  fun a => (accuracy_of (model a) (test_images a) (test_labels a), a).

Local Open Scope py_scope.

(** The first loop of [analyze_layer]. *)
Fixpoint sweep (layer_name : string) (original_weights : weights)
  (candidates : list Z) (sensitivity_curve : curve) : M Analyzer curve :=
  match candidates with
  | [] => ret sensitivity_curve
  | bits :: rest =>
      quantized_weights <- lift (_quantize_weights original_weights bits) ;;
      set_weights layer_name quantized_weights ;;;
      accuracy <- _evaluate_accuracy ;;
      let sensitivity_curve := dict_set Z.eqb sensitivity_curve bits accuracy in
      print [VInt bits; VFloat accuracy] ;;;
      sweep layer_name original_weights rest sensitivity_curve
  end.

Definition accuracy_threshold : Q := 99 # 100.

(** The second loop: the first candidate that reaches the threshold,
    [optimal_bits] when the loop ends without a [break]. *)
Fixpoint select_bits (sensitivity_curve : curve) (baseline_accuracy : pyfloat)
  (candidates : list Z) (optimal_bits : Z) : outcome Z :=
  match candidates with
  | [] => Returned optimal_bits
  | bits :: rest =>
      obind (dict_index Z.eqb sensitivity_curve bits) (fun accuracy =>
        if pf_geb accuracy (pf_mul baseline_accuracy accuracy_threshold)
        then Returned bits
        else select_bits sensitivity_curve baseline_accuracy rest optimal_bits)
  end.

Definition analyze_layer (layer_name : string) (bit_range : Z * Z)
  : M Analyzer (Z * curve) :=
  print [VStr layer_name] ;;;
  original_weights <- get_weights layer_name ;;
  sensitivity_curve <-
    sweep layer_name original_weights
      (range (fst bit_range) (snd bit_range + 1)) [] ;;
  set_weights layer_name original_weights ;;;
  baseline_accuracy <-
    lift (dict_index Z.eqb sensitivity_curve (snd bit_range)) ;;
  optimal_bits <-
    lift (select_bits sensitivity_curve baseline_accuracy
            (range (fst bit_range) (snd bit_range + 1)) (snd bit_range)) ;;
  (fun a =>
     (Returned tt,
      with_sensitivity_map
        (dict_set String.eqb (sensitivity_map a) layer_name
           (LayerInfo optimal_bits sensitivity_curve)) a)) ;;;
  print [VInt optimal_bits] ;;;
  ret (optimal_bits, sensitivity_curve).

Definition default_bit_range : Z * Z := (4, 16).

(** The loop of [analyze_all_layers]. *)
Fixpoint analyze_each (names : list string) : M Analyzer unit :=
  match names with
  | [] => ret tt
  | layer_name :: rest =>
      analyze_layer layer_name default_bit_range ;;;
      analyze_each rest
  end.

(** The three banner lines. *)
Definition banner : M Analyzer unit :=
  print [] ;;; print [] ;;; print [].

Definition analyze_all_layers : M Analyzer (list (string * layer_info)) :=
  banner ;;;
  a <- get ;;
  analyze_each (layer_names a) ;;;
  a' <- get ;;
  ret (sensitivity_map a').
End Analyzer.

Arguments model {image} a.
Arguments test_images {image} a.
Arguments test_labels {image} a.
Arguments layer_names {image} a.
Arguments sensitivity_map {image} a.
Arguments stdout {image} a.
Arguments MkAnalyzer {image}.
Arguments with_model {image}.
Arguments init {image}.

(** *** A small linear classifier standing for the Keras runtime

    The first weight tensor of layer [layer] is a matrix of class-by-feature
    weights and the scores of an input are the matrix-vector product.  It is
    used to run the analyzer on concrete inputs. *)

Definition dot (u v : list Q) : Q :=
  fold_right Qplus 0%Q (map (fun '(x, y) => (x * y)%Q) (combine u v)).

Fixpoint rows_of (cols : nat) (n : nat) (l : list Q) : list (list Q) :=
  match n with
  | O => []
  | S n' => firstn cols l :: rows_of cols n' (skipn cols l)
  end.

Definition linear_predict (layer : string) (m : Model) (images : list (list Q))
  : outcome (list (list Q)) :=
  match dict_get String.eqb m layer with
  | Some (NdArray [r; c] d :: _) =>
      Returned
        (map (fun x => map (fun row => Qred (dot row x)) (rows_of c r d)) images)
  | _ => Raised (Exn "EvaluationError")
  end.

Fixpoint list_eqb {A : Type} (eqb : A -> A -> bool) (l1 l2 : list A) : bool :=
  match l1, l2 with
  | [], [] => true
  | x :: l1', y :: l2' => eqb x y && list_eqb eqb l1' l2'
  | _, _ => false
  end.

Definition array_eqb (x y : ndarray Q) : bool :=
  list_eqb Nat.eqb (shape x) (shape y) && list_eqb Qeq_bool (data x) (data y).

(** A runtime whose forward pass raises while the weights of [layer] are
    not the [reference] ones. *)
Definition guarded_predict (layer : string) (reference : weights)
  (inner : Model -> list (list Q) -> outcome (list (list Q)))
  (m : Model) (images : list (list Q)) : outcome (list (list Q)) :=
  match dict_get String.eqb m layer with
  | Some w =>
      if list_eqb array_eqb w reference then inner m images
      else Raised (Exn "EvaluationError")
  | None => Raised (Exn "EvaluationError")
  end.

(** Concrete inputs: a two-class classifier on four inputs, alone and
    behind a first layer that the runtime guards. *)
Definition demo_kernel : ndarray Q :=
  NdArray [2; 2]%nat [1; 1 # 2; 1 # 2; 103 # 100]%Q.
Definition demo_bias : ndarray Q := NdArray [2%nat] [0; 0]%Q.
Definition demo_first : ndarray Q := NdArray [3%nat] [0; 1 # 2; 1]%Q.
Definition demo_images : list (list Q) := [[1; 1]; [1; 0]; [0; 1]; [1; 1]]%Q.
Definition demo_labels : list (list Q) := [[0; 1]; [1; 0]; [0; 1]; [0; 1]]%Q.

Definition demo_analyzer : Analyzer (list Q) :=
  init [("conv1", [demo_kernel; demo_bias])] demo_images demo_labels.

Definition demo_predict2 : Model -> list (list Q) -> outcome (list (list Q)) :=
  guarded_predict "conv1" [demo_first] (linear_predict "conv2").

Definition demo_analyzer2 : Analyzer (list Q) :=
  init [("conv1", [demo_first]); ("conv2", [demo_kernel; demo_bias])]
    demo_images demo_labels.

(* ================================================================== *)
(** ** 2. WeightClusteringQuantizer *)

Definition ZeroDivisionError : exn := Exn "ZeroDivisionError".

Record Quantizer : Type := MkQuantizer {
  num_clusters : Z;
  codebooks : list (string * list Q);
  indices : list (string * ndarray Z);
  console : list (list value)
}.

(** [__init__] *)
Definition quantizer_init (num_clusters : Z) : Quantizer :=
  MkQuantizer num_clusters [] [] [].

Definition qprint (line : list value) : M Quantizer unit :=
  fun q =>
    (Returned tt,
     MkQuantizer (num_clusters q) (codebooks q) (indices q) (console q ++ [line])).

Definition store_codebook (layer_name : string) (codebook : list Q)
  : M Quantizer unit :=
  fun q =>
    (Returned tt,
     MkQuantizer (num_clusters q)
       (dict_set String.eqb (codebooks q) layer_name codebook)
       (indices q) (console q)).

Definition store_indices (layer_name : string) (ix : ndarray Z)
  : M Quantizer unit :=
  fun q =>
    (Returned tt,
     MkQuantizer (num_clusters q) (codebooks q)
       (dict_set String.eqb (indices q) layer_name ix) (console q)).

(** [a.reshape(shape)] of a flat array: numpy raises [ValueError] when
    the sizes differ. *)
Definition reshape {A : Type} (l : list A) (shp : list nat) : outcome (ndarray A) :=
  if Nat.eqb (List.length l) (fold_right Nat.mul 1%nat shp)
  then Returned (NdArray shp l)
  else Raised ValueError.

(** [int(np.ceil(np.log2(k)))]: the logarithm of 0 is minus infinity and
    that of a negative number is not-a-number, which [int] refuses with
    [OverflowError] and [ValueError].  For [k >= 1] the value is the integer
    ceiling of the binary logarithm (exact while [k] is far below 2^53). *)
Definition index_bits_of (k : Z) : outcome Z :=
  if k <? 0 then Raised ValueError
  else if k =? 0 then Raised OverflowError
  else Returned (Z.log2_up k).

(** [a / b] on Python integers. *)
Definition true_div (a b : Z) : outcome Q :=
  if b =? 0 then Raised ZeroDivisionError
  else Returned (inject_Z a / inject_Z b)%Q.

Section Clustering.
(** [KMeans(n_clusters=k, random_state=42, n_init=10).fit_predict] on the
    flattened weights, with [cluster_centers_.flatten()]: the label of
    every sample and the centroids, or the exception the library raises. *)
Variable kmeans_fit_predict : Z -> list Q -> outcome (list Z * list Q).

Local Open Scope py_scope.

Definition quantize_layer_weights (weights : ndarray Q) (layer_name : string)
  : M Quantizer (ndarray Z * list Q) :=
  qprint [VStr layer_name] ;;;
  let original_shape := shape weights in
  let weights_flat := data weights in
  self <- get ;;
  qprint [VInt (num_clusters self)] ;;;
  fitted <- lift (kmeans_fit_predict (num_clusters self) weights_flat) ;;
  let labels := fst fitted in
  let centroids := snd fitted in
  reshaped <- lift (reshape labels original_shape) ;;
  let indices :=
    amap (if num_clusters self <=? 256 then astype_uint8 else astype_uint16)
      reshaped in
  let codebook := centroids in
  store_codebook layer_name codebook ;;;
  store_indices layer_name indices ;;;
  let original_size := size weights * 32 in
  index_bits <- lift (index_bits_of (num_clusters self)) ;;
  let compressed_size := size weights * index_bits + num_clusters self * 32 in
  compression_ratio <- lift (true_div original_size compressed_size) ;;
  qprint [VFloat (Fin (inject_Z original_size / 8 / 1024))] ;;;
  qprint [VFloat (Fin (inject_Z compressed_size / 8 / 1024))] ;;;
  qprint [VFloat (Fin compression_ratio)] ;;;
  ret (indices, codebook).
End Clustering.

(** *** A Lloyd iteration standing for scikit-learn's KMeans

    It makes scikit-learn's checks of its input (a cluster count below 1,
    no sample, fewer samples than clusters; each raises a [ValueError], the
    first one its subclass [InvalidParameterError] in recent versions) and
    then iterates from the first [k] samples.  It is used to run the quantizer on concrete
    inputs. *)

Fixpoint nearest_from (x best_d : Q) (best_i i : Z) (cs : list Q) : Z :=
  match cs with
  | [] => best_i
  | c :: cs' =>
      let d := Qabs (x - c) in
      if Qlt_le_dec d best_d then nearest_from x d i (i + 1) cs'
      else nearest_from x best_d best_i (i + 1) cs'
  end.

Definition nearest (cs : list Q) (x : Q) : Z :=
  match cs with
  | [] => 0
  | c :: cs' => nearest_from x (Qabs (x - c)) 0 1 cs'
  end.

Definition cluster_mean (xs : list Q) (labels : list Z) (j : Z) (old : Q) : Q :=
  let members := map fst (filter (fun p => Z.eqb (snd p) j) (combine xs labels)) in
  match members with
  | [] => old
  | _ => Qred (fold_right Qplus 0 members / inject_Z (Z.of_nat (List.length members)))
  end%Q.

Definition lloyd_step (xs cs : list Q) : list Q :=
  let labels := map (nearest cs) xs in
  map (fun p => cluster_mean xs labels (Z.of_nat (fst p)) (snd p))
    (combine (seq 0 (List.length cs)) cs).

Fixpoint lloyd (fuel : nat) (xs cs : list Q) : list Q :=
  match fuel with
  | O => cs
  | S fuel' =>
      let cs' := lloyd_step xs cs in
      if list_eqb Qeq_bool cs cs' then cs else lloyd fuel' xs cs'
  end.

Definition lloyd_kmeans (k : Z) (xs : list Q) : outcome (list Z * list Q) :=
  if k <? 1 then Raised ValueError
  else match xs with
       | [] => Raised ValueError
       | _ =>
           if Z.of_nat (List.length xs) <? k then Raised ValueError
           else
             let cs := lloyd 10 xs (firstn (Z.to_nat k) xs) in
             Returned (map (nearest cs) xs, cs)
       end.

(** The 512 weights of a 1x1 convolution, 64 inputs by 8 outputs, and an
    empty tensor. *)
Definition demo_512 : ndarray Q :=
  NdArray [1; 1; 64; 8]%nat
    (map (fun i => Z.of_nat (i mod 16) # 16) (seq 0 512)).
Definition demo_empty : ndarray Q := NdArray [0%nat] [].

(** A clustering routine that accepts whatever it is given: every sample in
    cluster 0, no centroid. *)
Definition lenient_kmeans (k : Z) (xs : list Q) : outcome (list Z * list Q) :=
  Returned (map (fun _ => 0) xs, []).

(* ================================================================== *)
(** ** 3. Logarithmic quantization of activations *)

Section LogQuantizer.
(** [np.log2] *)
Variable log2 : Q -> Q.

Definition logarithmic_quantize_activation (activation : ndarray Q) (out_bits : Z)
  : outcome (ndarray Z) :=
  let activation := amap (fun x => Qmax x 0) activation in
  let log_activation := amap (fun x => log2 (x + 1)) activation in
  obind (np_max activation) (fun activation_max =>
    let max_log := log2 (activation_max + 1) in
    let scale := (levels out_bits / (max_log + eps))%Q in
    let quantized :=
      amap (fun t => astype_uint8 (np_round (t * scale))) log_activation in
    Returned quantized).

(** [np.clip] *)
Definition clip (z lo hi : Z) : Z := Z.min (Z.max z lo) hi.

Definition max_of (l : list Q) : Q :=
  match l with
  | [] => 0
  | x :: xs => fold_left Qmax xs x
  end.

(** The quantizer in the words of the specification: [t = log2(max(x, 0) +
    1)], [scale = (2^outBits - 1) / (max t + eps)], [code = clip(round(t *
    scale), 0, 2^outBits - 1)]. *)
Definition spec_log_quantize (activation : ndarray Q) (out_bits : Z) : ndarray Z :=
  let t := map (fun x => log2 (Qmax x 0 + 1)) (data activation) in
  let scale := (levels out_bits / (max_of t + eps))%Q in
  NdArray (shape activation)
    (map (fun ti => clip (np_round (ti * scale)) 0 (2 ^ out_bits - 1)) t).
End LogQuantizer.

(** The integer part of the binary logarithm, standing for [np.log2] on
    concrete inputs. *)
Definition log2_floor (x : Q) : Q := inject_Z (Z.log2 (Qfloor x)).

Definition demo_activation : ndarray Q := NdArray [4%nat] [0; 3; 100; - (5)]%Q.

(* ================================================================== *)
(** ** 4. generate_mixed_precision_config *)

Record bits_entry : Type := BitsEntry {
  weight : Z;
  activation : Z
}.

Definition nl : string := String (ascii_of_nat 10) EmptyString.

Definition repr_int (z : Z) : string :=
  DecimalString.NilZero.string_of_int (Z.to_int z).

(** [repr] of [{'weight': w, 'activation': a}]. *)
Definition repr_entry (b : bits_entry) : string :=
  ("{'weight': " ++ repr_int (weight b) ++ ", 'activation': "
   ++ repr_int (activation b) ++ "}")%string.

(** The body of the loop over [sensitivity_map.items()]. *)
Definition config_entry (layer_name : string) (info : layer_info) : bits_entry :=
  let optimal_bits := optimal_bits info in
  if str_contains "dw" layer_name
  then BitsEntry optimal_bits (Z.max optimal_bits 8)
  else BitsEntry optimal_bits (optimal_bits + 1).

Fixpoint build_config (items : list (string * layer_info))
  (config : list (string * bits_entry)) : list (string * bits_entry) :=
  match items with
  | [] => config
  | (layer_name, info) :: rest =>
      build_config rest
        (dict_set String.eqb config layer_name (config_entry layer_name info))
  end.

Definition render_config (config : list (string * bits_entry)) : string :=
  ("# MobileNet FPGA 混合精度配置" ++ nl
   ++ "# 自动生成，请勿手动编辑" ++ nl ++ nl
   ++ "LAYER_BIT_CONFIG = {" ++ nl
   ++ String.concat ""
        (map (fun p => "    '" ++ fst p ++ "': " ++ repr_entry (snd p) ++ "," ++ nl)
           config)
   ++ "}" ++ nl)%string.

(** The files and the console the function writes to. *)
Record World : Type := MkWorld {
  files : list (string * string);
  terminal : list (list value)
}.

Section Config.
(** [open(path, 'w')]: the operating system lets the file be written or
    raises. *)
Variable open_w : string -> outcome unit.

Local Open Scope py_scope.

Definition write_file (path content : string) : M World unit :=
  fun w =>
    match open_w path with
    | Returned _ =>
        (Returned tt,
         MkWorld (dict_set String.eqb (files w) path content) (terminal w))
    | Raised e => (Raised e, w)
    end.

Definition generate_mixed_precision_config
  (sensitivity_map : list (string * layer_info)) (output_path : string)
  : M World (list (string * bits_entry)) :=
  let config := build_config sensitivity_map [] in
  write_file output_path (render_config config) ;;;
  (fun w => (Returned tt,
             MkWorld (files w) (terminal w ++ [[VStr output_path]]))) ;;;
  ret config.
End Config.

Definition default_output_path : string := "mixed_precision_config.py".

(** A file system that accepts every write. *)
Definition open_ok (path : string) : outcome unit := Returned tt.

(** The sensitivity map of scenario D. *)
Definition demo_sensitivity_map : list (string * layer_info) :=
  [("conv1_dw", LayerInfo 8 []); ("conv1_pw", LayerInfo 6 [])].

(* ================================================================== *)
(** ** Notions used in the statements *)

Definition quantizable (w : ndarray Q) : bool :=
  Nat.eqb (List.length (shape w)) 0 ||
  match data w with [] => false | _ => true end.

(** What a call leaves alone. *)
Definition same_inputs {image : Type} (a a' : Analyzer image) : Prop :=
  test_images a' = test_images a /\ test_labels a' = test_labels a /\
  layer_names a' = layer_names a.

(** Candidate [b] has a measured accuracy of at least 0.99 times the
    baseline. *)
Definition meets (c : curve) (baseline : pyfloat) (b : Z) : Prop :=
  exists acc,
    dict_get Z.eqb c b = Some acc /\
    pf_geb acc (pf_mul baseline accuracy_threshold) = true.



Definition demo_pw_kernel : ndarray Q :=
  NdArray [1; 1; 2; 3]%nat [1; 1 # 2; 0; - (1 # 2); 1 # 4; 1]%Q.
Definition demo_pw_bias : ndarray Q := NdArray [3%nat] [0; 1 # 2; 1]%Q.

(* ================================================================== *)
(** ** WeightClusteringQuantizer.dequantize_weights *)

Definition IndexError : exn := Exn "IndexError".

(** [codebook[i]] for one index: numpy counts a negative index from the
    end and raises [IndexError] outside [-n, n). *)
Definition np_take (codebook : list Q) (i : Z) : outcome Q :=
  let n := Z.of_nat (List.length codebook) in
  if (0 <=? i) && (i <? n) then Returned (nth (Z.to_nat i) codebook 0%Q)
  else if (- n <=? i) && (i <? 0) then Returned (nth (Z.to_nat (n + i)) codebook 0%Q)
  else Raised IndexError.

(** [codebook[indices]]: the gather has the shape of [indices]. *)
Definition dequantize_weights (indices : ndarray Z) (codebook : list Q)
  : outcome (ndarray Q) :=
  obind (omap (np_take codebook) (data indices)) (fun values =>
    Returned (NdArray (shape indices) values)).

(* ================================================================== *)
(** ** Formatting of numbers *)

Fixpoint repeat_string (n : nat) (s : string) : string :=
  match n with
  | O => EmptyString
  | S n' => (s ++ repeat_string n' s)%string
  end.

(** Zero padding on the left and space padding on the right, to a width
    counted in characters of the string. *)
Definition zfill (width : nat) (s : string) : string :=
  (repeat_string (width - String.length s) "0" ++ s)%string.
Definition ljust (width : nat) (s : string) : string :=
  (s ++ repeat_string (width - String.length s) " ")%string.

(** The binary digits of a positive number, most significant first, in
    front of [acc]. *)
Fixpoint bin_of_pos (p : positive) (acc : string) : string :=
  match p with
  | xH => String "1" acc
  | xO p' => bin_of_pos p' (String "0" acc)
  | xI p' => bin_of_pos p' (String "1" acc)
  end.

Definition bin_of_nonneg (z : Z) : string :=
  match z with
  | Zpos p => bin_of_pos p EmptyString
  | _ => "0"
  end.

(** [format(z, '0{width}b')] and [format(z, '0{width}d')]: the sign, then
    zeros, then the digits; the sign counts in the width. *)
Definition format_b (width : nat) (z : Z) : string :=
  if z <? 0 then ("-" ++ zfill (width - 1) (bin_of_nonneg (- z)))%string
  else zfill width (bin_of_nonneg z).

Definition format_d (width : nat) (z : Z) : string :=
  if z <? 0 then ("-" ++ zfill (width - 1) (repr_int (- z)))%string
  else zfill width (repr_int z).

(** [format(q, '.{prec}f')]: the value rounded to [prec] decimals, a tie to
    the even digit. *)
Definition format_f (prec : nat) (q : Q) : string :=
  let unit := 10 ^ Z.of_nat prec in
  let n := np_round (Qabs q * inject_Z unit) in
  ((if Qlt_le_dec q 0 then "-" else "")
   ++ repr_int (n / unit)
   ++ (if Nat.eqb prec 0 then "" else "." ++ zfill prec (repr_int (n mod unit))))%string.

(** [int(x)] of a float: truncation toward zero. *)
Definition int_of_float (x : Q) : Z := Z.quot (Qnum x) (Z.pos (Qden x)).

(** [os.path.join] of two components on a POSIX system. *)
Definition ends_with_slash (s : string) : bool :=
  match String.length s with
  | O => false
  | S n => match String.get n s with
           | Some c => Ascii.eqb c "/"
           | None => false
           end
  end.

Definition path_join (a b : string) : string :=
  if String.prefix "/" b then b
  else if Nat.eqb (String.length a) 0 then b
  else if ends_with_slash a then (a ++ b)%string
  else (a ++ "/" ++ b)%string.

(* ================================================================== *)
(** ** WeightClusteringQuantizer.save_to_fpga_format *)

(** [int(value * (2 ** 10))] *)
Definition fixed_point_of (value : Q) : Z := int_of_float (value * (2 ^ 10))%Q.

(** One line of the codebook file. *)
Definition codebook_line (i : nat) (value : Q) : string :=
  (format_d 2 (Z.of_nat i) ++ ": " ++ format_b 20 (fixed_point_of value)
   ++ "  // " ++ format_f 6 value ++ nl)%string.

Fixpoint codebook_lines (i : nat) (codebook : list Q) : string :=
  match codebook with
  | [] => EmptyString
  | value :: rest => (codebook_line i value ++ codebook_lines (S i) rest)%string
  end.

(** [a.tofile]: the elements in row-major order, one byte each for [uint8]
    and two bytes, low byte first, for [uint16].  The element type of a
    stored index tensor is the one [quantize_layer_weights] gave it, which
    depends on [num_clusters] only. *)
Definition byte_of (z : Z) : string :=
  String (ascii_of_N (Z.to_N (z mod 256))) EmptyString.

Definition index_bytes (k : Z) (ix : ndarray Z) : string :=
  String.concat ""
    (map (fun i => if k <=? 256 then byte_of i
                   else (byte_of i ++ byte_of (i / 256))%string)
       (data ix)).

Definition Files : Type := list (string * string).

Section FpgaExport.
(** The operating system: [os.makedirs(dir, exist_ok=True)] and the opening
    of a file for writing return or raise. *)
Variable makedirs : string -> outcome unit.
Variable open_w : string -> outcome unit.

Local Open Scope py_scope.

Definition write_to (path content : string) : M (Quantizer * Files) unit :=
  fun s =>
    match open_w path with
    | Returned _ => (Returned tt, (fst s, dict_set String.eqb (snd s) path content))
    | Raised e => (Raised e, s)
    end.

Definition export_print (line : list value) : M (Quantizer * Files) unit :=
  fun s =>
    let q := fst s in
    (Returned tt,
     (MkQuantizer (num_clusters q) (codebooks q) (indices q) (console q ++ [line]),
      snd s)).

(** The body of the loop over [self.codebooks.keys()]. *)
Definition export_layer (output_dir layer_name : string)
  : M (Quantizer * Files) unit :=
  let indices_path := path_join output_dir (layer_name ++ "_indices.bin") in
  s <- get ;;
  ix <- lift (dict_index String.eqb (indices (fst s)) layer_name) ;;
  write_to indices_path (index_bytes (num_clusters (fst s)) ix) ;;;
  let codebook_path := path_join output_dir (layer_name ++ "_codebook.txt") in
  (fun s' =>
     match open_w codebook_path with
     | Raised e => (Raised e, s')
     | Returned _ =>
         match dict_index String.eqb (codebooks (fst s')) layer_name with
         | Raised e =>
             (Raised e, (fst s', dict_set String.eqb (snd s') codebook_path ""))
         | Returned codebook =>
             (Returned tt,
              (fst s',
               dict_set String.eqb (snd s') codebook_path
                 (codebook_lines 0 codebook)))
         end
     end) ;;;
  export_print [VStr indices_path] ;;;
  export_print [VStr codebook_path].

Fixpoint export_layers (output_dir : string) (names : list string)
  : M (Quantizer * Files) unit :=
  match names with
  | [] => ret tt
  | layer_name :: rest =>
      export_layer output_dir layer_name ;;;
      export_layers output_dir rest
  end.

Definition save_to_fpga_format (output_dir : string) : M (Quantizer * Files) unit :=
  lift (makedirs output_dir) ;;;
  s <- get ;;
  export_layers output_dir (keys (codebooks (fst s))).
End FpgaExport.

(** Reading a field of binary digits back, as the consumer of the codebook
    file does: an optional minus sign, then digits. *)
Fixpoint read_bits (acc : Z) (s : string) : option Z :=
  match s with
  | EmptyString => Some acc
  | String c rest =>
      if Ascii.eqb c "0" then read_bits (2 * acc) rest
      else if Ascii.eqb c "1" then read_bits (2 * acc + 1) rest
      else None
  end.

Definition read_b (s : string) : option Z :=
  match s with
  | EmptyString => None
  | String c rest =>
      if Ascii.eqb c "-" then option_map Z.opp (read_bits 0 rest)
      else read_bits 0 s
  end.

(* ================================================================== *)
(** ** LayerSensitivityAnalyzer.generate_report *)

Definition line80 (c : string) : string := (repeat_string 80 c ++ nl)%string.

(** The lines written before the loop; the column titles are padded to
    40, 12, 12 and 12 characters. *)
Definition report_header (layers : nat) : string :=
  (line80 "="
   ++ "MobileNet FPGA 量化敏感度分析报告" ++ nl
   ++ line80 "=" ++ nl
   ++ "分析层数: " ++ repr_int (Z.of_nat layers) ++ nl ++ nl
   ++ "各层最优比特配置：" ++ nl
   ++ line80 "-"
   ++ "层名称" ++ repeat_string 37 " " ++ " "
   ++ "当前比特" ++ repeat_string 8 " " ++ " "
   ++ "最优比特" ++ repeat_string 8 " " ++ " "
   ++ "节省率" ++ repeat_string 9 " " ++ nl
   ++ line80 "-")%string.

Definition original_bits : Z := 19.

(** [(1 - optimal_bits / original_bits) * 100] *)
Definition savings_of (optimal_bits : Z) : Q :=
  ((1 - inject_Z optimal_bits / inject_Z original_bits) * 100)%Q.

(** One row of the table; the name is padded to 40 characters (bytes here,
    so the padding is the code's for names in ASCII). *)
Definition report_row (layer_name : string) (info : layer_info) : string :=
  (ljust 40 layer_name ++ " " ++ ljust 12 (repr_int original_bits) ++ " "
   ++ ljust 12 (repr_int (optimal_bits info)) ++ " "
   ++ ljust 12 (format_f 1 (savings_of (optimal_bits info))) ++ "%" ++ nl)%string.

(** The loop over [sensitivity_map.items()]: the rows written and the two
    running totals. *)
Fixpoint report_rows (items : list (string * layer_info)) (text : string)
  (total_bits_original total_bits_optimized : Z) : string * Z * Z :=
  match items with
  | [] => (text, total_bits_original, total_bits_optimized)
  | (layer_name, info) :: rest =>
      report_rows rest (text ++ report_row layer_name info)%string
        (total_bits_original + original_bits * 1000)
        (total_bits_optimized + optimal_bits info * 1000)
  end.

Section Report.
Variable image : Type.
Variable open_w : string -> outcome unit.

(** The file is opened, written line by line and closed; when the last
    computation raises, the lines written so far stay in the file. *)
Definition generate_report (output_path : string)
  : M (Analyzer image * Files) unit :=
  fun s =>
    let self := fst s in
    match open_w output_path with
    | Raised e => (Raised e, s)
    | Returned _ =>
        let '(rows, total_bits_original, total_bits_optimized) :=
          report_rows (sensitivity_map self)
            (report_header (List.length (sensitivity_map self))) 0 0 in
        let text := (rows ++ line80 "-")%string in
        match true_div total_bits_optimized total_bits_original with
        | Raised e =>
            (Raised e, (self, dict_set String.eqb (snd s) output_path text))
        | Returned fraction =>
            let overall_savings := ((1 - fraction) * 100)%Q in
            let text :=
              (text ++ nl ++ "总体存储节省: " ++ format_f 1 overall_savings
               ++ "%" ++ nl)%string in
            (Returned tt,
             (with_stdout image (stdout self ++ [[VStr output_path]]) self,
              dict_set String.eqb (snd s) output_path text))
        end
    end.
End Report.

Definition default_report_path : string := "quantization_sensitivity_report.txt".

(* ================================================================== *)
(** ** logarithmic_dequantize_activation *)

Section LogDequantizer.
(** [np.log2] and the power [2 ** x]. *)
Variable log2 : Q -> Q.
Variable exp2 : Q -> Q.

Definition logarithmic_dequantize_activation (quantized : ndarray Z)
  (original_max : Q) (out_bits : Z) : ndarray Q :=
  let max_log := log2 (original_max + 1) in
  let scale := (levels out_bits / (max_log + eps))%Q in
  let log_activation := amap (fun c => (inject_Z c / scale)%Q) quantized in
  let activation := amap (fun t => (exp2 t - 1)%Q) log_activation in
  activation.
End LogDequantizer.

(** The power of two of the integer part of a non-negative number, standing
    for [2 ** x] on concrete inputs. *)
Definition exp2_floor (x : Q) : Q := inject_Z (2 ^ Z.max 0 (Qfloor x)).

(* ================================================================== *)
(** ** Notions used in the further properties *)

(** What a measured accuracy can be: not-a-number, or a fraction between 0
    and 1. *)
Definition valid_accuracy (acc : pyfloat) : Prop :=
  match acc with
  | NaN => True
  | Fin q => (0 <= q /\ q <= 1)%Q
  end.

(* ================================================================== *)
(** * Facts *)

(** ** Dictionaries and ranges *)

Section DictFacts.
Context {K V : Type} (eqb : K -> K -> bool).
Hypothesis eqb_eq : forall x y, eqb x y = true <-> x = y.

Lemma eqb_refl_true (k : K) : eqb k k = true.
Proof. apply eqb_eq. reflexivity. Qed.

Lemma dict_set_same (d : list (K * V)) k v :
  dict_get eqb d k = Some v -> dict_set eqb d k v = d.
Proof.
  induction d as [|[k' v'] d IH]; simpl; [discriminate|].
  destruct (eqb k' k) eqn:E.
  - intros [= ->]. reflexivity.
  - intros H. rewrite (IH H). reflexivity.
Qed.

Lemma dict_set_twice (d : list (K * V)) k v v' :
  dict_set eqb (dict_set eqb d k v) k v' = dict_set eqb d k v'.
Proof.
  induction d as [|[k' w] d IH]; simpl.
  - rewrite eqb_refl_true. reflexivity.
  - destruct (eqb k' k) eqn:E; simpl; rewrite E; [reflexivity|].
    rewrite IH. reflexivity.
Qed.

Lemma dict_get_set_same (d : list (K * V)) k v :
  dict_get eqb (dict_set eqb d k v) k = Some v.
Proof.
  induction d as [|[k' w] d IH]; simpl.
  - rewrite eqb_refl_true. reflexivity.
  - destruct (eqb k' k) eqn:E; simpl; rewrite E; [reflexivity | exact IH].
Qed.

Lemma dict_get_set_other (d : list (K * V)) k k' v :
  k <> k' -> dict_get eqb (dict_set eqb d k v) k' = dict_get eqb d k'.
Proof.
  intros Hne. induction d as [|[k0 w] d IH]; simpl.
  - destruct (eqb k k') eqn:E; [apply eqb_eq in E; contradiction | reflexivity].
  - destruct (eqb k0 k) eqn:E; simpl.
    + apply eqb_eq in E. subst k0.
      destruct (eqb k k') eqn:E'; [apply eqb_eq in E'; contradiction | reflexivity].
    + destruct (eqb k0 k'); [reflexivity | exact IH].
Qed.

Lemma dict_get_in_keys (d : list (K * V)) k v :
  dict_get eqb d k = Some v -> In k (keys d).
Proof.
  induction d as [|[k' w] d IH]; simpl; [discriminate|].
  destruct (eqb k' k) eqn:E.
  - apply eqb_eq in E. auto.
  - auto.
Qed.

Lemma dict_get_not_in_keys (d : list (K * V)) k :
  ~ In k (keys d) -> dict_get eqb d k = None.
Proof.
  destruct (dict_get eqb d k) eqn:E; [|reflexivity].
  intros H. elim H. eapply dict_get_in_keys; eassumption.
Qed.

Lemma dict_get_of_key (d : list (K * V)) k :
  In k (keys d) -> exists v, dict_get eqb d k = Some v.
Proof.
  induction d as [|[k' w] d IH]; simpl; [intros []|].
  intros [-> | Hin].
  - rewrite eqb_refl_true. eauto.
  - destruct (eqb k' k); [eauto | auto].
Qed.

Lemma keys_dict_set_new (d : list (K * V)) k v :
  ~ In k (keys d) -> keys (dict_set eqb d k v) = keys d ++ [k].
Proof.
  induction d as [|[k' w] d IH]; simpl; intros Hn; [reflexivity|].
  destruct (eqb k' k) eqn:E.
  - apply eqb_eq in E. elim Hn. auto.
  - simpl. rewrite IH; auto.
Qed.
End DictFacts.

Lemma range_nil (lo hi : Z) : hi <= lo -> range lo hi = [].
Proof.
  intros H. unfold range. replace (Z.to_nat (hi - lo)) with 0%nat by lia.
  reflexivity.
Qed.


Lemma in_range (lo hi b : Z) : In b (range lo hi) <-> lo <= b < hi.
Proof.
  unfold range. rewrite in_map_iff. split.
  - intros (i & <- & Hi). apply in_seq in Hi. lia.
  - intros H. exists (Z.to_nat (b - lo)). split; [lia|]. apply in_seq. lia.
Qed.


Lemma range_NoDup (lo hi : Z) : NoDup (range lo hi).
Proof.
  unfold range. apply Injective_map_NoDup; [|apply seq_NoDup].
  intros i j. lia.
Qed.

(** ** Which weight lists can be quantized does not depend on the bit-width *)

Lemma quantize_tensor_quantizable (bits : Z) (w : ndarray Q) :
  if quantizable w
  then exists w', quantize_tensor bits w = Returned w'
  else quantize_tensor bits w = Raised ValueError.
Proof.
  unfold quantizable, quantize_tensor, np_min, np_max.
  destruct (Nat.eqb (List.length (shape w)) 0); simpl; [eauto|].
  destruct (data w); simpl; eauto.
Qed.

Lemma quantize_weights_raises (ws : weights) (bits bits' : Z) (e : exn) :
  _quantize_weights ws bits = Raised e -> _quantize_weights ws bits' = Raised e.
Proof.
  unfold _quantize_weights.
  induction ws as [|w ws IH]; simpl; [discriminate|].
  pose proof (quantize_tensor_quantizable bits w) as H.
  pose proof (quantize_tensor_quantizable bits' w) as H'.
  destruct (quantizable w).
  - destruct H as [y ->], H' as [y' ->]. simpl.
    destruct (omap (quantize_tensor bits) ws) eqn:E; simpl; [discriminate|].
    intros [= ->]. rewrite (IH eq_refl). reflexivity.
  - rewrite H, H'. simpl. auto.
Qed.

(** ** The sweep of [analyze_layer] *)

Section AnalyzerFacts.
Variable image : Type.
Variable predict : Model -> list image -> outcome (list (list Q)).

Abbreviation Analyzer := (Analyzer image).
Abbreviation sweep := (sweep image predict).
Abbreviation analyze_layer := (analyze_layer image predict).
Abbreviation analyze_each := (analyze_each image predict).
Abbreviation analyze_all_layers := (analyze_all_layers image predict).
Abbreviation accuracy_of := (accuracy_of image predict).

Lemma string_eqb_eq (x y : string) : String.eqb x y = true <-> x = y.
Proof. apply String.eqb_eq. Qed.

Lemma sweep_cons (name : string) (orig : weights) (bits : Z) (rest : list Z)
  (c : curve) (a : Analyzer) :
  sweep name orig (bits :: rest) c a =
  match _quantize_weights orig bits with
  | Raised e => (Raised e, a)
  | Returned q =>
      let a1 := with_model (dict_set String.eqb (model a) name q) a in
      match accuracy_of (model a1) (test_images a) (test_labels a) with
      | Raised e => (Raised e, a1)
      | Returned acc =>
          sweep name orig rest (dict_set Z.eqb c bits acc)
            (with_stdout image (stdout a ++ [[VInt bits; VFloat acc]]) a1)
      end
  end.
Proof.
  simpl. unfold bind, lift, set_weights, _evaluate_accuracy, print.
  destruct (_quantize_weights orig bits); [|reflexivity].
  simpl. destruct (accuracy_of _ _ _); reflexivity.
Qed.

Lemma sweep_spec (name : string) (orig : weights) :
  forall (bs : list Z) (c : curve) (a : Analyzer) o a',
    sweep name orig bs c a = (o, a') ->
    same_inputs a a' /\ sensitivity_map a' = sensitivity_map a /\
    match o with
    | Returned _ =>
        model a' = model a \/
        exists q, model a' = dict_set String.eqb (model a) name q
    | Raised e =>
        (model a' = model a /\
         exists b, In b bs /\ _quantize_weights orig b = Raised e) \/
        (exists b q,
            In b bs /\ _quantize_weights orig b = Returned q /\
            model a' = dict_set String.eqb (model a) name q /\
            accuracy_of (model a') (test_images a) (test_labels a) = Raised e)
    end.
Proof.
  induction bs as [|b bs IH]; intros c a o a' H.
  - injection H as <- <-. repeat split. left. reflexivity.
  - rewrite sweep_cons in H.
    destruct (_quantize_weights orig b) as [q|e] eqn:Eq.
    + cbv zeta in H.
      destruct (accuracy_of _ _ _) as [acc|e] eqn:Ea.
      * apply IH in H. destruct H as ((Hi & Hl & Hn) & Hs & H).
        simpl in Hi, Hl, Hn, Hs. repeat split; try assumption.
        destruct o as [c'|e]; simpl in H.
        -- right. destruct H as [-> | [q' ->]]; [eauto|].
           rewrite (dict_set_twice _ string_eqb_eq). eauto.
        -- right. destruct H as [[_ (b' & _ & Hb')] | (b' & q' & Hin & Hq & Hm & Hacc)].
           ++ apply (quantize_weights_raises _ _ b) in Hb'. congruence.
           ++ exists b', q'. rewrite Hm.
              rewrite (dict_set_twice _ string_eqb_eq).
              repeat split; auto.
              ** right. exact Hin.
              ** rewrite <- (dict_set_twice _ string_eqb_eq (model a) name q q').
                 rewrite <- Hm. exact Hacc.
      * injection H as <- <-. repeat split. right. exists b, q.
        repeat split; auto. left. reflexivity.
    + injection H as <- <-. repeat split. left. split; [reflexivity|].
      exists b. split; [left; reflexivity | exact Eq].
Qed.

(** The run of [analyze_layer], statement by statement. *)
Lemma analyze_layer_run (name : string) (lo hi : Z) (a : Analyzer) :
  analyze_layer name (lo, hi) a =
  let a0 := with_stdout image (stdout a ++ [[VStr name]]) a in
  match dict_get String.eqb (model a) name with
  | None => (Raised ValueError, a0)
  | Some orig =>
      match sweep name orig (range lo (hi + 1)) [] a0 with
      | (Raised e, a1) => (Raised e, a1)
      | (Returned c, a1) =>
          let a2 := with_model (dict_set String.eqb (model a1) name orig) a1 in
          match dict_index Z.eqb c hi with
          | Raised e => (Raised e, a2)
          | Returned baseline =>
              match select_bits c baseline (range lo (hi + 1)) hi with
              | Raised e => (Raised e, a2)
              | Returned optimal =>
                  (Returned (optimal, c),
                   with_stdout image (stdout a2 ++ [[VInt optimal]])
                     (with_sensitivity_map image
                        (dict_set String.eqb (sensitivity_map a2) name
                           (LayerInfo optimal c)) a2))
              end
          end
      end
  end.
Proof.
  unfold analyze_layer, bind, print, get_weights, set_weights, lift, ret.
  simpl. destruct (dict_get String.eqb (model a) name); [|reflexivity].
  destruct (sweep _ _ _ _ _) as [[c|e] a1]; [|reflexivity].
  destruct (dict_index Z.eqb c hi); [|reflexivity].
  destruct (select_bits _ _ _ _); reflexivity.
Qed.

(** ** Selection of [optimal_bits] *)

Lemma select_bits_spec (c : curve) (baseline : pyfloat) (default : Z) :
  forall (bs : list Z) (r : Z),
    select_bits c baseline bs default = Returned r ->
    (exists pre post,
        bs = pre ++ r :: post /\ meets c baseline r /\
        forall b, In b pre -> ~ meets c baseline b) \/
    (r = default /\ forall b, In b bs -> ~ meets c baseline b).
Proof.
  induction bs as [|b bs IH]; simpl; intros r H.
  - injection H as <-. right. split; [reflexivity | intros b []].
  - unfold dict_index in H.
    destruct (dict_get Z.eqb c b) as [acc|] eqn:Eg; simpl in H; [|discriminate].
    destruct (pf_geb acc (pf_mul baseline accuracy_threshold)) eqn:Ege.
    + injection H as <-. left. exists [], bs.
      split; [reflexivity|]. split; [exists acc; auto | intros ? []].
    + assert (Hb : ~ meets c baseline b).
      { intros (acc' & Hg & Hacc). congruence. }
      destruct (IH _ H) as [(pre & post & -> & Hr & Hpre) | [-> Hall]].
      * left. exists (b :: pre), post. split; [reflexivity|].
        split; [exact Hr|]. intros b' [<- | Hin]; auto.
      * right. split; [reflexivity|]. intros b' [<- | Hin]; auto.
Qed.

Lemma sweep_keys (name : string) (orig : weights) :
  forall (bs : list Z) (c : curve) (a : Analyzer) c' a',
    NoDup bs -> (forall b, In b bs -> ~ In b (keys c)) ->
    sweep name orig bs c a = (Returned c', a') ->
    keys c' = keys c ++ bs.
Proof.
  induction bs as [|b bs IH]; intros c a c' a' Hnd Hfresh H.
  - injection H as <- _. rewrite app_nil_r. reflexivity.
  - rewrite sweep_cons in H.
    destruct (_quantize_weights orig b); [|discriminate]. cbv zeta in H.
    destruct (accuracy_of _ _ _) as [acc|]; [|discriminate].
    inversion Hnd as [|? ? Hnotin Hnd']; subst.
    assert (Hk : keys (dict_set Z.eqb c b acc) = keys c ++ [b]).
    { apply keys_dict_set_new; [apply Z.eqb_eq | apply Hfresh; left; reflexivity]. }
    apply IH in H; [| exact Hnd' |].
    + rewrite H, Hk, <- app_assoc. reflexivity.
    + intros b' Hin. rewrite Hk, in_app_iff.
      intros [Hc | [<- | []]]; [|contradiction].
      apply (Hfresh b'); [right; exact Hin | exact Hc].
Qed.


(** The call returns when the layer exists, its weights can be quantized
    and no forward pass raises. *)
Lemma select_bits_returns (c : curve) (baseline : pyfloat) (default : Z) :
  forall bs : list Z,
    (forall b, In b bs -> In b (keys c)) ->
    exists r, select_bits c baseline bs default = Returned r.
Proof.
  induction bs as [|b bs IH]; simpl; intros Hin; [eauto|].
  unfold dict_index.
  destruct (dict_get_of_key Z.eqb Z.eqb_eq c b (Hin b (or_introl eq_refl)))
    as [acc ->].
  simpl. destruct (pf_geb acc _); [eauto | apply IH; auto].
Qed.

Lemma sweep_returns (name : string) (orig : weights)
  (images : list image) (labels : list (list Q)) :
  (forall m, exists acc, accuracy_of m images labels = Returned acc) ->
  forall bs : list Z,
    (forall b, In b bs -> exists q, _quantize_weights orig b = Returned q) ->
    forall (c : curve) (a : Analyzer),
      test_images a = images -> test_labels a = labels ->
      exists c' a', sweep name orig bs c a = (Returned c', a').
Proof.
  intros Hacc. induction bs as [|b bs IH]; intros Hq c a Hi Hl.
  - simpl. unfold ret. eauto.
  - rewrite sweep_cons.
    destruct (Hq b (or_introl eq_refl)) as [q ->]. cbv zeta.
    rewrite Hi, Hl.
    destruct (Hacc (model (with_model (dict_set String.eqb (model a) name q) a)))
      as [acc ->].
    apply IH; [intros b' Hb'; apply Hq; right; exact Hb' | exact Hi | exact Hl].
Qed.

Lemma analyze_layer_returns (name : string) (lo hi : Z) (a : Analyzer)
  (orig q0 : weights) :
  lo <= hi ->
  dict_get String.eqb (model a) name = Some orig ->
  _quantize_weights orig lo = Returned q0 ->
  (forall m, exists acc,
      accuracy_of m (test_images a) (test_labels a) = Returned acc) ->
  exists optimal c a', analyze_layer name (lo, hi) a = (Returned (optimal, c), a').
Proof.
  intros Hle Hget Hq0 Hacc. rewrite analyze_layer_run. cbv zeta. rewrite Hget.
  assert (Hq : forall b, In b (range lo (hi + 1)) ->
                 exists q, _quantize_weights orig b = Returned q).
  { intros b _. destruct (_quantize_weights orig b) as [q|e] eqn:E; [eauto|].
    apply (quantize_weights_raises _ _ lo) in E. congruence. }
  destruct (sweep_returns name orig _ _ Hacc _ Hq []
              (with_stdout image (stdout a ++ [[VStr name]]) a) eq_refl eq_refl)
    as (c & a1 & Hs).
  rewrite Hs.
  assert (Hk : keys c = range lo (hi + 1)).
  { apply sweep_keys in Hs; [exact Hs | apply range_NoDup | intros ? _ []]. }
  assert (Hall : forall b, In b (range lo (hi + 1)) -> In b (keys c))
    by (intros b Hb; rewrite Hk; exact Hb).
  unfold dict_index.
  destruct (dict_get_of_key Z.eqb Z.eqb_eq c hi) as [baseline ->].
  { apply Hall, in_range. lia. }
  destruct (select_bits_returns c baseline hi _ Hall) as [r ->]. eauto.
Qed.

(** ** [analyze_all_layers] *)

Lemma analyze_each_app (pre post : list string) (a : Analyzer) :
  analyze_each (pre ++ post) a =
  match analyze_each pre a with
  | (Returned _, a1) => analyze_each post a1
  | (Raised e, a1) => (Raised e, a1)
  end.
Proof.
  revert a. induction pre as [|n pre IH]; intros a; simpl; [reflexivity|].
  unfold bind. destruct (analyze_layer n default_bit_range a) as [[r|e] a1];
    [apply IH | reflexivity].
Qed.

Lemma analyze_layer_raise_keeps_map (name : string) (lo hi : Z)
  (a a' : Analyzer) (e : exn) :
  analyze_layer name (lo, hi) a = (Raised e, a') ->
  sensitivity_map a' = sensitivity_map a.
Proof.
  rewrite analyze_layer_run. cbv zeta.
  destruct (dict_get String.eqb (model a) name) as [orig|];
    [|intros [= _ <-]; reflexivity].
  destruct (sweep _ _ _ _ _) as [[c|e0] a1] eqn:Es;
    apply sweep_spec in Es; destruct Es as (_ & Hs & _); simpl in Hs.
  - destruct (dict_index Z.eqb c hi); [|intros [= _ <-]; exact Hs].
    destruct (select_bits _ _ _ _); [discriminate | intros [= _ <-]; exact Hs].
  - intros [= _ <-]. exact Hs.
Qed.

(** C3 (as amended).  [analyze_all_layers] has no handler around a layer's
    analysis.  When the analysis of a layer raises, after the layers
    before it were analysed, the method raises the same error in the state
    that analysis left: no later layer is analysed, no map is returned, and
    the failing layer adds no record to [sensitivity_map].  When no
    analysis raises, the method returns [sensitivity_map]. *)
Theorem analyze_all_layers_stops_at_failure (a : Analyzer) :
  (forall pre failing post a1 a2 e,
      layer_names a = pre ++ failing :: post ->
      analyze_each pre (snd (banner image a)) = (Returned tt, a1) ->
      analyze_layer failing default_bit_range a1 = (Raised e, a2) ->
      analyze_all_layers a = (Raised e, a2) /\
      sensitivity_map a2 = sensitivity_map a1) /\
  (forall a1,
      analyze_each (layer_names a) (snd (banner image a)) = (Returned tt, a1) ->
      analyze_all_layers a = (Returned (sensitivity_map a1), a1)).
Proof.
  split.
  - intros pre failing post a1 a2 e Hnames Hpre Hfail.
    split; [|eapply analyze_layer_raise_keeps_map; exact Hfail].
    unfold analyze_all_layers, bind, get. simpl.
    rewrite Hnames, analyze_each_app.
    simpl in Hpre. rewrite Hpre. simpl. unfold bind. rewrite Hfail. reflexivity.
  - intros a1 H. unfold analyze_all_layers, bind, get. simpl.
    simpl in H. rewrite H. reflexivity.
Qed.

End AnalyzerFacts.

(** ** Runs on the concrete inputs *)

Lemma list_eqb_Forall2 {A : Type} (eqb : A -> A -> bool) (R : A -> A -> Prop) :
  (forall x y, eqb x y = true <-> R x y) ->
  forall l1 l2, list_eqb eqb l1 l2 = true <-> Forall2 R l1 l2.
Proof.
  intros Heq. induction l1 as [|x l1 IH]; intros [|y l2]; simpl.
  - split; auto.
  - split; [discriminate | intros H; inversion H].
  - split; [discriminate | intros H; inversion H].
  - rewrite andb_true_iff, Heq, IH. split.
    + intros [? ?]. constructor; assumption.
    + intros H. inversion H. auto.
Qed.

Lemma array_eqb_spec (x y : ndarray Q) : array_eqb x y = true <-> array_eq x y.
Proof.
  unfold array_eqb, array_eq. rewrite andb_true_iff.
  rewrite (list_eqb_Forall2 Nat.eqb eq Nat.eqb_eq).
  rewrite (list_eqb_Forall2 Qeq_bool Qeq Qeq_bool_iff).
  split; intros [Hs Hd]; split; auto.
  - clear Hd. induction Hs; congruence.
  - clear Hd. rewrite Hs. generalize (shape y). intros l. induction l; auto.
Qed.



(** C3 (counterexample).  The analysis of ["conv1"] raises; the analysis of
    ["conv2"] alone returns; yet [analyze_all_layers] raises, and no record
    of ["conv2"] exists afterwards. *)
Lemma analyze_all_layers_abandons_remaining_layers :
  let r := analyze_all_layers (list Q) demo_predict2 demo_analyzer2 in
  layer_names demo_analyzer2 = ["conv1"; "conv2"] /\
  (exists res,
      fst (analyze_layer (list Q) demo_predict2 "conv2" default_bit_range
             demo_analyzer2) = Returned res) /\
  fst r = Raised (Exn "EvaluationError") /\
  dict_get String.eqb (sensitivity_map (snd r)) "conv2" = None.
Proof.
  split; [reflexivity|]. split; [eexists; vm_compute; reflexivity|].
  split; vm_compute; reflexivity.
Qed.

(** C3 (witness): the first of two layers fails, and a run where no layer
    fails. *)
Lemma analyze_all_layers_stops_at_failure_witness :
  (let a1 := snd (banner (list Q) demo_analyzer2) in
   let a2 := snd (analyze_layer (list Q) demo_predict2 "conv1"
                    default_bit_range a1) in
   analyze_all_layers (list Q) demo_predict2 demo_analyzer2 =
     (Raised (Exn "EvaluationError"), a2) /\
   sensitivity_map a2 = sensitivity_map a1) /\
  (let a1 := snd (analyze_each (list Q) (linear_predict "conv1")
                    (layer_names demo_analyzer)
                    (snd (banner (list Q) demo_analyzer))) in
   analyze_all_layers (list Q) (linear_predict "conv1") demo_analyzer =
     (Returned (sensitivity_map a1), a1)).
Proof.
  split.
  - intros a1 a2.
    apply (proj1 (analyze_all_layers_stops_at_failure (list Q) demo_predict2
                    demo_analyzer2) [] "conv1" ["conv2"] a1 a2).
    + reflexivity.
    + reflexivity.
    + vm_compute. reflexivity.
  - intros a1.
    apply (proj2 (analyze_all_layers_stops_at_failure (list Q)
                    (linear_predict "conv1") demo_analyzer) a1).
    vm_compute. reflexivity.
Defined.

(* ================================================================== *)
(** ** Arithmetic of the uniform quantizer *)


Lemma fold_Qmax_case (P : Q -> Prop) :
  (forall x y, x == y -> P x -> P y)%Q ->
  forall xs x, P x -> Forall P xs -> P (fold_left Qmax xs x).
Proof.
  intros Hc. induction xs as [|y xs IH]; simpl; intros x Hx Hall; [exact Hx|].
  inversion Hall; subst. apply IH; [|assumption].
  apply Q.max_case; auto.
Qed.

Lemma fold_Qmin_le (xs : list Q) :
  forall x, (fold_left Qmin xs x <= x)%Q /\
            Forall (fun y => fold_left Qmin xs x <= y)%Q xs.
Proof.
  induction xs as [|y xs IH]; simpl; intros x.
  - split; [apply Qle_refl | constructor].
  - destruct (IH (Qmin x y)) as [H1 H2]. split.
    + eapply Qle_trans; [exact H1 | apply Q.le_min_l].
    + constructor; [|exact H2].
      eapply Qle_trans; [exact H1 | apply Q.le_min_r].
Qed.

Lemma fold_Qmax_ge (xs : list Q) :
  forall x, (x <= fold_left Qmax xs x)%Q /\
            Forall (fun y => y <= fold_left Qmax xs x)%Q xs.
Proof.
  induction xs as [|y xs IH]; simpl; intros x.
  - split; [apply Qle_refl | constructor].
  - destruct (IH (Qmax x y)) as [H1 H2]. split.
    + eapply Qle_trans; [apply Q.le_max_l | exact H1].
    + constructor; [|exact H2].
      eapply Qle_trans; [apply Q.le_max_r | exact H1].
Qed.

(** On a non-empty tensor [min] and [max] exist and bound every element. *)
Lemma np_min_max_bounds (w : ndarray Q) :
  data w <> [] ->
  exists w_min w_max,
    np_min w = Returned w_min /\ np_max w = Returned w_max /\
    Forall (fun x => w_min <= x /\ x <= w_max)%Q (data w).
Proof.
  unfold np_min, np_max. destruct (data w) as [|x xs]; [congruence|]. intros _.
  eexists. eexists. split; [reflexivity|]. split; [reflexivity|].
  destruct (fold_Qmin_le xs x) as [H1 H2], (fold_Qmax_ge xs x) as [H3 H4].
  constructor; [split; assumption|].
  rewrite Forall_forall in *. intros y Hy. split; auto.
Qed.

Lemma np_round_proper (x y : Q) : (x == y)%Q -> np_round x = np_round y.
Proof.
  intros H. unfold np_round. rewrite (Qfloor_comp _ _ H).
  assert (Hc : ((x - inject_Z (Qfloor y) ?= 1 # 2) =
                (y - inject_Z (Qfloor y) ?= 1 # 2))%Q).
  { apply Qcompare_comp; [rewrite H|]; reflexivity. }
  rewrite Hc. reflexivity.
Qed.

(** The rounded value is within one half of the argument. *)
Lemma np_round_near (x : Q) :
  (inject_Z (np_round x) - (1 # 2) <= x /\ x <= inject_Z (np_round x) + (1 # 2))%Q.
Proof.
  unfold np_round.
  pose proof (Qfloor_le x) as Hlo. pose proof (Qlt_floor x) as Hhi.
  rewrite inject_Z_plus in Hhi. change (inject_Z 1) with 1%Q in Hhi.
  destruct (QOrderedType.Q_as_OT.compare_spec (x - inject_Z (Qfloor x)) (1 # 2))
    as [He | Hl | Hg].
  - destruct (Z.even (Qfloor x));
      [|rewrite inject_Z_plus; change (inject_Z 1) with 1%Q]; lra.
  - lra.
  - rewrite inject_Z_plus. change (inject_Z 1) with 1%Q. lra.
Qed.

Lemma inject_Z_half_le (n m : Z) :
  (inject_Z n <= inject_Z m + (1 # 2))%Q -> n <= m.
Proof. unfold Qle, Qplus, inject_Z. simpl. lia. Qed.

(** An argument between two integers rounds between them. *)
Lemma np_round_between (x : Q) (lo hi : Z) :
  (inject_Z lo <= x)%Q -> (x <= inject_Z hi)%Q -> lo <= np_round x <= hi.
Proof.
  intros Hlo Hhi. destruct (np_round_near x) as [H1 H2]. split.
  - apply inject_Z_half_le. lra.
  - apply inject_Z_half_le. lra.
Qed.

Lemma levels_inject (bits : Z) : 0 <= bits -> (levels bits == inject_Z (2 ^ bits - 1))%Q.
Proof.
  intros H. unfold levels, Z.sub. rewrite inject_Z_plus, Zpower_Qpower by exact H.
  reflexivity.
Qed.

Lemma levels_ge_1 (bits : Z) : 1 <= bits -> (1 <= levels bits)%Q.
Proof.
  intros H. rewrite levels_inject by lia.
  assert (2 ^ 1 <= 2 ^ bits) by (apply Z.pow_le_mono_r; lia).
  change 1%Q with (inject_Z 1). rewrite <- Zle_Qle. lia.
Qed.












(** C4 (the code at a failing input).  Only a tensor of rank 0 is passed
    through unchanged.  The bias of a convolution is a vector, of rank 1: it
    goes through the quantizer like the kernel, and [0, 0.5, 1] at 4 bits
    does not come back equal. *)
Lemma quantize_weights_changes_bias :
  (forall bits x, quantize_tensor bits (NdArray [] [x]) = Returned (NdArray [] [x])) /\
  List.length (shape demo_pw_bias) = 1%nat /\
  exists kernel' bias',
    _quantize_weights [demo_pw_kernel; demo_pw_bias] 4
      = Returned [kernel'; bias'] /\
    ~ array_eq bias' demo_pw_bias.
Proof.
  split; [reflexivity|]. split; [reflexivity|].
  eexists. eexists. split; [vm_compute; reflexivity|].
  rewrite <- array_eqb_spec. vm_compute. discriminate.
Qed.

(* ================================================================== *)
(** ** The clustering quantizer *)

Section ClusteringFacts.
Variable kmeans_fit_predict : Z -> list Q -> outcome (list Z * list Q).

(** C6 (as amended, the formula).  When the clustering of a tensor with
    [k >= 1] clusters returns one label per element, [quantize_layer_weights]
    returns, and the last line it prints carries the ratio
    [(32 * n) / (ceil(log2 k) * n + k * 32)] for [n] elements. *)
Theorem quantize_layer_weights_reports_ratio (w : ndarray Q) (name : string)
  (q : Quantizer) (labels : list Z) (centroids : list Q) :
  1 <= num_clusters q ->
  kmeans_fit_predict (num_clusters q) (data w) = Returned (labels, centroids) ->
  List.length labels = fold_right Nat.mul 1%nat (shape w) ->
  exists ix ratio q',
    quantize_layer_weights kmeans_fit_predict w name q
      = (Returned (ix, centroids), q') /\
    last (console q') [] = [VFloat (Fin ratio)] /\
    (ratio == inject_Z (size w * 32)
              / inject_Z (size w * Z.log2_up (num_clusters q)
                          + num_clusters q * 32))%Q.
Proof.
  intros Hk Hkm Hlen.
  assert (Hden : size w * Z.log2_up (num_clusters q) + num_clusters q * 32 <> 0).
  { pose proof (Z.log2_up_nonneg (num_clusters q)).
    assert (0 <= size w) by (unfold size; lia). nia. }
  unfold quantize_layer_weights, bind, qprint, get, lift, store_codebook,
    store_indices, ret. simpl.
  rewrite Hkm. unfold reshape. simpl. rewrite Hlen, Nat.eqb_refl.
  unfold index_bits_of.
  destruct (Z.ltb_spec (num_clusters q) 0); [lia|].
  destruct (Z.eqb_spec (num_clusters q) 0); [lia|].
  unfold true_div.
  destruct (Z.eqb_spec (size w * Z.log2_up (num_clusters q) + num_clusters q * 32) 0);
    [contradiction|].
  eexists. eexists. eexists. split; [reflexivity|]. simpl. split.
  - rewrite !last_last. reflexivity.
  - reflexivity.
Qed.

(** C9 (as amended).  [quantize_layer_weights] checks nothing itself: the
    cluster count and the tensor go to the clustering routine as they are.
    When that routine raises, the call raises the same exception, and the
    stored codebooks and indices are the ones before the call. *)
Theorem quantize_layer_weights_propagates_clustering_error (w : ndarray Q)
  (name : string) (q : Quantizer) (e : exn) :
  kmeans_fit_predict (num_clusters q) (data w) = Raised e ->
  exists q',
    quantize_layer_weights kmeans_fit_predict w name q = (Raised e, q') /\
    codebooks q' = codebooks q /\ indices q' = indices q /\
    num_clusters q' = num_clusters q.
Proof.
  intros Hkm.
  unfold quantize_layer_weights, bind, qprint, get, lift. simpl.
  rewrite Hkm. eexists. split; [reflexivity|]. simpl. auto.
Qed.
End ClusteringFacts.

(** C6 (witness): 16 clusters on 512 weights. *)
Lemma quantize_layer_weights_reports_ratio_witness :
  let fitted := lloyd_kmeans 16 (data demo_512) in
  1 <= 16 /\
  (exists labels centroids,
     fitted = Returned (labels, centroids) /\
     List.length labels = fold_right Nat.mul 1%nat (shape demo_512) /\
     exists ix ratio q',
       quantize_layer_weights lloyd_kmeans demo_512 "conv1_pw" (quantizer_init 16)
         = (Returned (ix, centroids), q') /\
       last (console q') [] = [VFloat (Fin ratio)] /\
       (ratio == inject_Z (size demo_512 * 32)
                 / inject_Z (size demo_512 * Z.log2_up 16 + 16 * 32))%Q).
Proof.
  intros fitted.
  assert (Hk : 1 <= num_clusters (quantizer_init 16)) by (simpl; lia).
  split; [exact Hk|].
  destruct fitted as [[labels centroids]|e] eqn:Hf;
    [|exfalso; vm_compute in Hf; discriminate].
  assert (Hlen : List.length labels = fold_right Nat.mul 1%nat (shape demo_512)).
  { vm_compute in Hf. injection Hf as <- _. reflexivity. }
  exists labels, centroids. split; [reflexivity|]. split; [exact Hlen|].
  exact (quantize_layer_weights_reports_ratio lloyd_kmeans demo_512 "conv1_pw"
           (quantizer_init 16) labels centroids Hk Hf Hlen).
Defined.

(** C6 (counterexample).  For 16 clusters on 512 weights the printed ratio is
    16384 / 2560 = 6.4, which is more than 1 away from 5.33. *)
Lemma compression_ratio_16_on_512 :
  size demo_512 = 512 /\
  exists r q' ratio,
    quantize_layer_weights lloyd_kmeans demo_512 "conv1_pw" (quantizer_init 16)
      = (Returned r, q') /\
    last (console q') [] = [VFloat (Fin ratio)] /\
    (ratio == 64 # 10)%Q /\
    (ratio == inject_Z (512 * 32) / inject_Z (512 * 4 + 16 * 32))%Q /\
    ~ (Qabs (ratio - (533 # 100)) <= 1)%Q.
Proof.
  split; [reflexivity|]. eexists. eexists. eexists.
  split; [vm_compute; reflexivity|].
  split; [reflexivity|].
  split; [reflexivity|]. split; [reflexivity|].
  vm_compute. intros H. apply H. reflexivity.
Qed.

(** C9 (witness): scikit-learn's checks reject 0 clusters. *)
Lemma quantize_layer_weights_propagates_clustering_error_witness :
  lloyd_kmeans 0 (data demo_512) = Raised ValueError /\
  exists q',
    quantize_layer_weights lloyd_kmeans demo_512 "conv1_pw" (quantizer_init 0)
      = (Raised ValueError, q') /\
    codebooks q' = codebooks (quantizer_init 0) /\
    indices q' = indices (quantizer_init 0) /\
    num_clusters q' = num_clusters (quantizer_init 0).
Proof.
  assert (H : lloyd_kmeans (num_clusters (quantizer_init 0)) (data demo_512)
              = Raised ValueError) by reflexivity.
  split; [exact H|].
  exact (quantize_layer_weights_propagates_clustering_error lloyd_kmeans
           demo_512 "conv1_pw" (quantizer_init 0) ValueError H).
Defined.

(** C9 (counterexample).  With the library's checks, 0 clusters and an empty
    tensor both fail with the library's [ValueError], not with
    [InvalidClusterCount] or [EmptyTensor].  The method has no check of its
    own: with a clustering routine that accepts its input, the call with 0
    clusters stores a codebook and indices and only then raises
    [OverflowError] from the logarithm, and the call on an empty tensor
    returns. *)
Lemma quantize_layer_weights_has_no_validation :
  (let r := quantize_layer_weights lloyd_kmeans demo_512 "conv1_pw"
              (quantizer_init 0) in
   exists e, fst r = Raised e /\ exn_class e <> "InvalidClusterCount") /\
  (let r := quantize_layer_weights lloyd_kmeans demo_empty "conv1_pw"
              (quantizer_init 16) in
   size demo_empty = 0 /\
   exists e, fst r = Raised e /\ exn_class e <> "EmptyTensor") /\
  (let r := quantize_layer_weights lenient_kmeans demo_512 "conv1_pw"
              (quantizer_init 0) in
   fst r = Raised OverflowError /\
   dict_get String.eqb (codebooks (snd r)) "conv1_pw" <> None /\
   dict_get String.eqb (indices (snd r)) "conv1_pw" <> None) /\
  (let r := quantize_layer_weights lenient_kmeans demo_empty "conv1_pw"
              (quantizer_init 16) in
   exists res, fst r = Returned res).
Proof.
  split; [|split; [|split]].
  - eexists. split; [vm_compute; reflexivity | vm_compute; discriminate].
  - split; [reflexivity|].
    eexists. split; [vm_compute; reflexivity | vm_compute; discriminate].
  - split; [vm_compute; reflexivity|]. split; vm_compute; discriminate.
  - eexists. vm_compute. reflexivity.
Qed.

(* ================================================================== *)
(** ** The mixed-precision configuration *)

Lemma build_config_untouched (items : list (string * layer_info)) :
  forall (config : list (string * bits_entry)) (name : string),
    ~ In name (keys items) ->
    dict_get String.eqb (build_config items config) name
    = dict_get String.eqb config name.
Proof.
  induction items as [|[k info] items IH]; intros config name Hn; simpl;
    [reflexivity|].
  simpl in Hn. rewrite IH by tauto.
  apply dict_get_set_other; [apply String.eqb_eq | tauto].
Qed.

Lemma build_config_get (items : list (string * layer_info)) :
  forall (config : list (string * bits_entry)) (name : string) (info : layer_info),
    NoDup (keys items) ->
    dict_get String.eqb items name = Some info ->
    dict_get String.eqb (build_config items config) name
    = Some (config_entry name info).
Proof.
  induction items as [|[k i] items IH]; intros config name info Hnd Hget;
    simpl in *; [discriminate|].
  inversion Hnd as [|? ? Hnotin Hnd']; subst.
  destruct (String.eqb k name) eqn:E.
  - apply String.eqb_eq in E. subst k. injection Hget as ->.
    rewrite build_config_untouched by exact Hnotin.
    apply dict_get_set_same. apply String.eqb_eq.
  - apply IH; assumption.
Qed.

Lemma build_config_keys (items : list (string * layer_info)) :
  forall (config : list (string * bits_entry)),
    NoDup (keys items) ->
    (forall k, In k (keys items) -> ~ In k (keys config)) ->
    keys (build_config items config) = keys config ++ keys items.
Proof.
  induction items as [|[k i] items IH]; intros config Hnd Hfresh; simpl.
  - rewrite app_nil_r. reflexivity.
  - inversion Hnd as [|? ? Hnotin Hnd']; subst.
    assert (Hk : keys (dict_set String.eqb config k (config_entry k i))
                 = keys config ++ [k]).
    { apply keys_dict_set_new; [apply String.eqb_eq|].
      apply Hfresh. left. reflexivity. }
    rewrite IH; [rewrite Hk, <- app_assoc; reflexivity | exact Hnd' |].
    intros k' Hin. rewrite Hk, in_app_iff.
    intros [Hc | [<- | []]]; [|contradiction].
    apply (Hfresh k'); [right; exact Hin | exact Hc].
Qed.

(** C7.  For a sensitivity map (a dictionary: no key twice) and a path that
    can be written, [generate_mixed_precision_config] returns a configuration
    with the layers of the map in the same order; a layer with optimal bits
    [n] gets weight [n] and activation [max(n, 8)] when its name contains
    ["dw"] and activation [n + 1] otherwise; the file holds the rendering of
    that configuration.  The map of scenario D gives
    [{'conv1_dw': (8, 8), 'conv1_pw': (6, 7)}]. *)
Theorem generate_mixed_precision_config_rule (open_w : string -> outcome unit)
  (sensitivity_map : list (string * layer_info)) (path : string) (world : World) :
  NoDup (keys sensitivity_map) ->
  open_w path = Returned tt ->
  exists config world',
    generate_mixed_precision_config open_w sensitivity_map path world
      = (Returned config, world') /\
    keys config = keys sensitivity_map /\
    (forall name info,
        dict_get String.eqb sensitivity_map name = Some info ->
        dict_get String.eqb config name
        = Some (if str_contains "dw" name
                then BitsEntry (optimal_bits info) (Z.max (optimal_bits info) 8)
                else BitsEntry (optimal_bits info) (optimal_bits info + 1))) /\
    dict_get String.eqb (files world') path = Some (render_config config) /\
    build_config demo_sensitivity_map []
    = [("conv1_dw", BitsEntry 8 8); ("conv1_pw", BitsEntry 6 7)].
Proof.
  intros Hnd Hopen.
  exists (build_config sensitivity_map []). eexists.
  split.
  { unfold generate_mixed_precision_config, bind, write_file, ret.
    rewrite Hopen. reflexivity. }
  split; [apply (build_config_keys sensitivity_map [] Hnd); intros ? _ []|].
  split.
  { intros name info Hget.
    rewrite (build_config_get sensitivity_map [] name info Hnd Hget).
    unfold config_entry. destruct (str_contains "dw" name); reflexivity. }
  split; [|reflexivity].
  simpl. apply dict_get_set_same. apply String.eqb_eq.
Qed.

(** C7 (witness): scenario D. *)
Lemma generate_mixed_precision_config_rule_witness :
  NoDup (keys demo_sensitivity_map) /\
  open_ok default_output_path = Returned tt /\
  exists config world',
    generate_mixed_precision_config open_ok demo_sensitivity_map
      default_output_path (MkWorld [] [])
      = (Returned config, world') /\
    keys config = keys demo_sensitivity_map /\
    (forall name info,
        dict_get String.eqb demo_sensitivity_map name = Some info ->
        dict_get String.eqb config name
        = Some (if str_contains "dw" name
                then BitsEntry (optimal_bits info) (Z.max (optimal_bits info) 8)
                else BitsEntry (optimal_bits info) (optimal_bits info + 1))) /\
    dict_get String.eqb (files world') default_output_path
    = Some (render_config config) /\
    build_config demo_sensitivity_map []
    = [("conv1_dw", BitsEntry 8 8); ("conv1_pw", BitsEntry 6 7)].
Proof.
  assert (H1 : NoDup (keys demo_sensitivity_map)).
  { simpl. repeat constructor; simpl; intuition discriminate. }
  assert (H2 : open_ok default_output_path = Returned tt) by reflexivity.
  split; [exact H1|]. split; [exact H2|].
  exact (generate_mixed_precision_config_rule open_ok demo_sensitivity_map
           default_output_path (MkWorld [] []) H1 H2).
Defined.

(* ================================================================== *)
(** ** Logarithmic quantization *)

Lemma fold_Qmax_proper (l : list Q) :
  forall x x', (x == x')%Q -> (fold_left Qmax l x == fold_left Qmax l x')%Q.
Proof.
  induction l as [|y l IH]; simpl; intros x x' H; [exact H|].
  apply IH. rewrite H. reflexivity.
Qed.

Lemma levels_nonneg (bits : Z) : 0 <= bits -> (0 <= levels bits)%Q.
Proof.
  intros H. rewrite levels_inject by exact H.
  change 0%Q with (inject_Z 0). rewrite <- Zle_Qle.
  pose proof (Z.pow_pos_nonneg 2 bits ltac:(lia) H). lia.
Qed.

Section LogFacts.
Variable log2 : Q -> Q.
Hypothesis log2_proper : forall x y, (x == y)%Q -> (log2 x == log2 y)%Q.
Hypothesis log2_mono : forall x y, (1 <= x)%Q -> (x <= y)%Q -> (log2 x <= log2 y)%Q.
Hypothesis log2_one : (log2 1 == 0)%Q.
Hypothesis log2_two : (log2 2 == 1)%Q.

Let h (a : Q) : Q := log2 (a + 1).

Lemma h_max (x y : Q) :
  (0 <= x)%Q -> (0 <= y)%Q -> (Qmax (h x) (h y) == h (Qmax x y))%Q.
Proof.
  intros Hx Hy. unfold h. destruct (Qlt_le_dec x y) as [Hlt | Hle].
  - transitivity (log2 (y + 1)).
    + apply Q.max_r. apply log2_mono; lra.
    + apply log2_proper. rewrite (Q.max_r x y) by lra. reflexivity.
  - transitivity (log2 (x + 1)).
    + apply Q.max_l. apply log2_mono; lra.
    + apply log2_proper. rewrite (Q.max_l x y) by lra. reflexivity.
Qed.

Lemma fold_Qmax_h (xs : list Q) :
  forall x, (0 <= x)%Q -> Forall (fun y => 0 <= y)%Q xs ->
    (fold_left Qmax (map h xs) (h x) == h (fold_left Qmax xs x))%Q.
Proof.
  induction xs as [|y xs IH]; simpl; intros x Hx Hall; [reflexivity|].
  inversion Hall; subst.
  rewrite (fold_Qmax_proper _ _ _ (h_max x y Hx ltac:(assumption))).
  apply IH; [|assumption].
  apply Q.max_case; auto. intros a b Hab Ha. rewrite <- Hab. exact Ha.
Qed.

(** One element of the tensor: its transform times the scale lies between 0
    and [2^out_bits - 1]. *)
Lemma log_code_range (a m : Q) (out_bits : Z) :
  0 <= out_bits -> (0 <= a)%Q -> (a <= m)%Q ->
  let scale := (levels out_bits / (h m + eps))%Q in
  (0 <= h a * scale)%Q /\ (h a * scale <= inject_Z (2 ^ out_bits - 1))%Q.
Proof.
  intros Hb Ha Ham scale.
  pose proof (levels_nonneg out_bits Hb) as HL.
  assert (Hta : (0 <= h a)%Q).
  { unfold h. rewrite <- log2_one. apply log2_mono; lra. }
  assert (Htm : (h a <= h m)%Q) by (unfold h; apply log2_mono; lra).
  assert (HD : (0 < h m + eps)%Q) by (unfold eps; lra).
  rewrite <- levels_inject by exact Hb.
  set (L := levels out_bits) in *. set (D := (h m + eps)%Q) in *.
  assert (Hs : (0 <= scale)%Q).
  { unfold scale. apply Qle_shift_div_l; [exact HD | lra]. }
  split; [apply Qmult_le_0_compat; assumption|].
  unfold scale.
  setoid_replace (h a * (L / D))%Q with (h a * L / D)%Q by (field; lra).
  apply Qle_shift_div_r; [exact HD|]. unfold D, eps. nra.
Qed.

(** C8 (as amended).  For a non-empty tensor and [0 <= out_bits <= 8], the
    function returns the codes of the specification's formula: the clip does
    nothing and the cast to [uint8] keeps every code, all of which lie in
    [0, 2^out_bits - 1].  With [out_bits = 8] and a tensor whose maximum is
    100, the code of an element equal to 100 is 255. *)
Theorem logarithmic_quantize_activation_codes (act : ndarray Q) (out_bits : Z) :
  0 <= out_bits <= 8 -> data act <> [] ->
  exists quantized,
    logarithmic_quantize_activation log2 act out_bits = Returned quantized /\
    quantized = spec_log_quantize log2 act out_bits /\
    Forall (fun c => 0 <= c <= 2 ^ out_bits - 1) (data quantized) /\
    (out_bits = 8 ->
     Forall (fun y => y <= 100)%Q (data act) ->
     Forall2 (fun x c => (x == 100)%Q -> c = 255) (data act) (data quantized)).
Proof.
  intros Hb Hdata.
  set (clamped := amap (fun x => Qmax x 0) act).
  assert (Hcd : data clamped <> []).
  { unfold clamped, amap. simpl. destruct (data act); [congruence | discriminate]. }
  destruct (np_min_max_bounds clamped Hcd) as (lowest & m & _ & Hmax & Hall).
  assert (Hall' : forall x, In x (data act) -> (0 <= Qmax x 0 <= m)%Q).
  { intros x Hx. split; [apply Q.le_max_r|].
    rewrite Forall_forall in Hall. apply (Hall (Qmax x 0)).
    unfold clamped, amap. simpl. apply in_map_iff. exists x. auto. }
  assert (Hm0 : (0 <= m)%Q).
  { destruct (data act) as [|x xs]; [congruence|].
    destruct (Hall' x (or_introl eq_refl)). lra. }
  set (scale := (levels out_bits / (h m + eps))%Q).
  assert (Hmaxof : (max_of (map (fun x => log2 (Qmax x 0 + 1)) (data act)) == h m)%Q).
  { unfold np_max, clamped, amap in Hmax. simpl in Hmax.
    destruct (data act) as [|x xs]; [congruence|]. simpl in Hmax.
    injection Hmax as <-. simpl.
    rewrite <- (map_map (fun x => Qmax x 0) h).
    apply fold_Qmax_h; [apply Q.le_max_r|].
    apply Forall_forall. intros y Hy. apply in_map_iff in Hy.
    destruct Hy as (y0 & <- & _). apply Q.le_max_r. }
  assert (Hround : forall x, In x (data act) ->
            0 <= np_round (h (Qmax x 0) * scale) <= 2 ^ out_bits - 1).
  { intros x Hx. destruct (Hall' x Hx) as [H0 Hm].
    destruct (log_code_range (Qmax x 0) m out_bits (proj1 Hb) H0 Hm) as [H1 H2].
    apply np_round_between; assumption. }
  assert (Hpow : 2 ^ out_bits <= 2 ^ 8) by (apply Z.pow_le_mono_r; lia).
  exists (amap (fun t => astype_uint8 (np_round (t * scale)))
            (amap (fun x => log2 (x + 1)) clamped)).
  split.
  { unfold logarithmic_quantize_activation. fold clamped. rewrite Hmax.
    reflexivity. }
  split.
  { unfold spec_log_quantize, amap, clamped. simpl. f_equal.
    rewrite !map_map. apply map_ext_in. intros x Hx.
    fold (h (Qmax x 0)).
    assert (Hsc : (h (Qmax x 0)
                   * (levels out_bits
                      / (max_of (map (fun x0 => log2 (Qmax x0 0 + 1)) (data act))
                         + eps))
                   == h (Qmax x 0) * scale)%Q).
    { unfold scale. rewrite Hmaxof. reflexivity. }
    rewrite (np_round_proper _ _ Hsc).
    pose proof (Hround x Hx) as Hr.
    unfold astype_uint8, clip. rewrite Z.mod_small by lia. lia. }
  split.
  { unfold amap, clamped. simpl. rewrite !map_map.
    apply Forall_forall. intros c Hc. apply in_map_iff in Hc.
    destruct Hc as (x & <- & Hx). fold (h (Qmax x 0)).
    pose proof (Hround x Hx) as Hr.
    unfold astype_uint8. rewrite Z.mod_small by lia. exact Hr. }
  intros -> Hle.
  assert (Hm100 : forall x, In x (data act) -> (x == 100)%Q -> (m == 100)%Q).
  { intros x Hx Hx100. apply Qle_antisym.
    - unfold np_max in Hmax. destruct (data clamped) as [|c cs] eqn:Ec;
        [congruence|]. injection Hmax as <-.
      assert (Hc100 : Forall (fun y => y <= 100)%Q (c :: cs)).
      { rewrite <- Ec. unfold clamped, amap. simpl.
        apply Forall_forall. intros y Hy. apply in_map_iff in Hy.
        destruct Hy as (y0 & <- & Hy0).
        rewrite Forall_forall in Hle. specialize (Hle y0 Hy0).
        apply Q.max_lub; lra. }
      inversion Hc100; subst.
      apply (fold_Qmax_case (fun v => v <= 100)%Q); auto.
      intros a b Hab Ha. rewrite <- Hab. exact Ha.
    - destruct (Hall' x Hx) as [_ Hxm].
      eapply Qle_trans; [|exact Hxm]. rewrite <- Hx100. apply Q.le_max_l. }
  unfold amap, clamped. simpl. rewrite !map_map.
  assert (Hgen : forall l, (forall x, In x l -> In x (data act)) ->
            Forall2 (fun x c => (x == 100)%Q -> c = 255) l
              (map (fun x => astype_uint8 (np_round (log2 (Qmax x 0 + 1) * scale))) l)).
  { induction l as [|x l IH]; intros Hsub; simpl; constructor.
    - intros Hx100. fold (h (Qmax x 0)).
      pose proof (Hround x (Hsub x (or_introl eq_refl))) as Hr.
      pose proof (Hm100 x (Hsub x (or_introl eq_refl)) Hx100) as Hm.
      unfold astype_uint8. rewrite Z.mod_small by lia.
      assert (Hq : (Qmax x 0 == 100)%Q) by (rewrite Hx100; reflexivity).
      assert (Ht : (h (Qmax x 0) == h m)%Q).
      { unfold h. apply log2_proper. rewrite Hq, Hm. reflexivity. }
      assert (Ht1 : (1 <= h m)%Q).
      { unfold h. apply Qle_trans with (log2 2).
        - rewrite log2_two. apply Qle_refl.
        - apply log2_mono; lra. }
      destruct (np_round_near (h (Qmax x 0) * scale)) as [_ Hn].
      assert (Hbig : (inject_Z 254 < inject_Z (np_round (h (Qmax x 0) * scale)))%Q).
      { assert (Hs : (254 + (1 # 2) < h (Qmax x 0) * scale)%Q).
        { rewrite Ht. unfold scale.
          assert (HL : (levels 8 == 255)%Q) by reflexivity. rewrite HL.
          setoid_replace (h m * (255 / (h m + eps)))%Q
            with (h m * 255 / (h m + eps))%Q by (field; unfold eps; lra).
          apply Qlt_shift_div_l; unfold eps; lra. }
        change (inject_Z 254) with 254%Q. lra. }
      rewrite <- Zlt_Qlt in Hbig. change (2 ^ 8 - 1) with 255 in Hr. lia.
    - apply IH. intros y Hy. apply Hsub. right. exact Hy. }
  apply Hgen. auto.
Qed.
End LogFacts.

Lemma log2_floor_proper (x y : Q) : (x == y)%Q -> (log2_floor x == log2_floor y)%Q.
Proof. intros H. unfold log2_floor. rewrite (Qfloor_comp _ _ H). reflexivity. Qed.

Lemma log2_floor_mono (x y : Q) :
  (1 <= x)%Q -> (x <= y)%Q -> (log2_floor x <= log2_floor y)%Q.
Proof.
  intros _ H. unfold log2_floor. rewrite <- Zle_Qle.
  apply Z.log2_le_mono. apply Qfloor_resp_le. exact H.
Qed.

(** C8 (witness): the tensor [0, 3, 100, -5] at 8 bits, with the integer
    part of the logarithm for [np.log2]. *)
Lemma logarithmic_quantize_activation_codes_witness :
  (forall x y, x == y -> log2_floor x == log2_floor y)%Q /\
  (forall x y, 1 <= x -> x <= y -> log2_floor x <= log2_floor y)%Q /\
  (log2_floor 1 == 0)%Q /\ (log2_floor 2 == 1)%Q /\
  0 <= 8 <= 8 /\ data demo_activation <> [] /\
  exists quantized,
    logarithmic_quantize_activation log2_floor demo_activation 8
      = Returned quantized /\
    quantized = spec_log_quantize log2_floor demo_activation 8 /\
    Forall (fun c => 0 <= c <= 2 ^ 8 - 1) (data quantized) /\
    (8 = 8 ->
     Forall (fun y => y <= 100)%Q (data demo_activation) ->
     Forall2 (fun x c => (x == 100)%Q -> c = 255)
       (data demo_activation) (data quantized)).
Proof.
  assert (H1 : (log2_floor 1 == 0)%Q) by reflexivity.
  assert (H2 : (log2_floor 2 == 1)%Q) by reflexivity.
  assert (H3 : 0 <= 8 <= 8) by lia.
  assert (H4 : data demo_activation <> []) by discriminate.
  split; [exact log2_floor_proper|]. split; [exact log2_floor_mono|].
  split; [exact H1|]. split; [exact H2|]. split; [exact H3|]. split; [exact H4|].
  exact (logarithmic_quantize_activation_codes log2_floor log2_floor_proper
           log2_floor_mono H1 H2 demo_activation 8 H3 H4).
Defined.

(** C8 (counterexample).  At 9 bits the formula of the specification gives
    the code 511 to the maximum element 100; the function casts to [uint8]
    and returns 255 there. *)
Lemma logarithmic_quantize_activation_wraps_above_8_bits :
  nth_error (data demo_activation) 2 = Some 100%Q /\
  nth_error (data (spec_log_quantize log2_floor demo_activation 9)) 2 = Some 511 /\
  exists quantized,
    logarithmic_quantize_activation log2_floor demo_activation 9
      = Returned quantized /\
    nth_error (data quantized) 2 = Some 255 /\
    quantized <> spec_log_quantize log2_floor demo_activation 9.
Proof.
  split; [reflexivity|]. split; [vm_compute; reflexivity|].
  eexists. split; [vm_compute; reflexivity|]. split; [reflexivity|].
  vm_compute. discriminate.
Qed.

(* ================================================================== *)
(** * Further properties of the code *)

(** ** The uniform quantizer *)

Lemma quantize_tensor_shape (bits : Z) (w w' : ndarray Q) :
  quantize_tensor bits w = Returned w' ->
  shape w' = shape w /\ List.length (data w') = List.length (data w).
Proof.
  unfold quantize_tensor.
  destruct (Nat.eqb (List.length (shape w)) 0); [intros [= <-]; auto|].
  destruct (np_min w) as [w_min|]; simpl; [|discriminate].
  destruct (np_max w) as [w_max|]; simpl; [|discriminate].
  intros [= <-]. unfold amap. simpl. rewrite !length_map. auto.
Qed.

(** X1.  When [_quantize_weights] returns, the result has as many tensors
    as the input and each one has the shape and the size of the tensor it
    comes from. *)
Theorem quantize_weights_keeps_shapes (ws qs : weights) (bits : Z) :
  _quantize_weights ws bits = Returned qs ->
  map shape qs = map shape ws /\
  map (fun w => List.length (data w)) qs = map (fun w => List.length (data w)) ws.
Proof.
  unfold _quantize_weights. revert qs.
  induction ws as [|w ws IH]; simpl; intros qs H.
  - injection H as <-. auto.
  - destruct (quantize_tensor bits w) as [w'|] eqn:Ew; simpl in H; [|discriminate].
    destruct (omap (quantize_tensor bits) ws) as [qs'|]; simpl in H; [|discriminate].
    injection H as <-. destruct (IH qs' eq_refl) as [H1 H2].
    destruct (quantize_tensor_shape _ _ _ Ew) as [H3 H4].
    simpl. rewrite H1, H2, H3, H4. auto.
Qed.

Lemma quantize_weights_keeps_shapes_witness :
  exists qs,
    _quantize_weights [demo_pw_kernel; demo_pw_bias] 4 = Returned qs /\
    map shape qs = map shape [demo_pw_kernel; demo_pw_bias] /\
    map (fun w => List.length (data w)) qs
    = map (fun w => List.length (data w)) [demo_pw_kernel; demo_pw_bias].
Proof.
  eexists.
  assert (H : _quantize_weights [demo_pw_kernel; demo_pw_bias] 4 = Returned _)
    by (vm_compute; reflexivity).
  split; [exact H|].
  exact (quantize_weights_keeps_shapes _ _ 4 H).
Defined.










(* ================================================================== *)
(** ** The analyzer *)

Lemma argmax_from_spec (row : list Q) :
  forall (pre : list Q) (best : Q) (best_i : nat),
    nth_error pre best_i = Some best ->
    Forall (fun x => x <= best)%Q pre ->
    (forall j x, (j < best_i)%nat -> nth_error pre j = Some x -> (x < best)%Q) ->
    exists m,
      nth_error (pre ++ row) (argmax_from best best_i (List.length pre) row)
      = Some m /\
      Forall (fun x => x <= m)%Q (pre ++ row) /\
      (forall j x,
          (j < argmax_from best best_i (List.length pre) row)%nat ->
          nth_error (pre ++ row) j = Some x -> (x < m)%Q).
Proof.
  induction row as [|x row IH]; intros pre best best_i Hn Hall Hstrict; simpl.
  - rewrite app_nil_r. exists best. auto.
  - assert (Hlen : List.length (pre ++ [x]) = S (List.length pre))
      by (rewrite length_app; simpl; lia).
    assert (Hbi : (best_i < List.length pre)%nat)
      by (apply nth_error_Some; congruence).
    replace (pre ++ x :: row) with ((pre ++ [x]) ++ row)
      by (rewrite <- app_assoc; reflexivity).
    rewrite <- Hlen.
    destruct (Qlt_le_dec best x) as [Hlt | Hge].
    + apply IH.
      * rewrite nth_error_app2 by lia.
        replace (List.length pre - List.length pre)%nat with 0%nat by lia.
        reflexivity.
      * apply Forall_app. split; [|constructor; [apply Qle_refl | constructor]].
        eapply Forall_impl; [|exact Hall]. intros y Hy. simpl in Hy. lra.
      * intros j y Hj Hy.
        rewrite nth_error_app1 in Hy by lia.
        apply nth_error_In in Hy. rewrite Forall_forall in Hall.
        specialize (Hall y Hy). simpl in Hall. lra.
    + apply IH.
      * rewrite nth_error_app1 by lia. exact Hn.
      * apply Forall_app. split; [exact Hall | constructor; [exact Hge | constructor]].
      * intros j y Hj Hy. rewrite nth_error_app1 in Hy by lia.
        apply (Hstrict j y Hj Hy).
Qed.

(** X6.  [np.argmax] of a row: an empty row raises [ValueError]; otherwise
    the result is a position of the row, the element there is at least every
    element, and every element before it is strictly smaller (the first
    maximum wins). *)
Theorem argmax_first_maximum (row : list Q) :
  match argmax row with
  | Raised e => row = [] /\ e = ValueError
  | Returned i =>
      exists m,
        nth_error row i = Some m /\
        Forall (fun x => x <= m)%Q row /\
        forall j x, (j < i)%nat -> nth_error row j = Some x -> (x < m)%Q
  end.
Proof.
  destruct row as [|x row]; simpl; [auto|].
  apply (argmax_from_spec row [x] x 0%nat).
  - reflexivity.
  - constructor; [apply Qle_refl | constructor].
  - intros j y Hj. lia.
Qed.

Lemma mean_bool_valid (l : list bool) : valid_accuracy (mean_bool l).
Proof.
  destruct l as [|b l]; [exact I|].
  unfold mean_bool, valid_accuracy.
  set (n := List.length (b :: l)).
  set (k := List.length (filter id (b :: l))).
  assert (Hk : (k <= n)%nat) by apply filter_length_le.
  assert (Hn : (0 < n)%nat) by (unfold n; simpl; lia).
  assert (Hq : (0 < inject_Z (Z.of_nat n))%Q).
  { change 0%Q with (inject_Z 0). rewrite <- Zlt_Qlt. lia. }
  split.
  - apply Qle_shift_div_l; [exact Hq|].
    rewrite Qmult_0_l. change 0%Q with (inject_Z 0). rewrite <- Zle_Qle. lia.
  - apply Qle_shift_div_r; [exact Hq|].
    rewrite Qmult_1_l. rewrite <- Zle_Qle. lia.
Qed.

Section AnalyzerMore.
Variable image : Type.
Variable predict : Model -> list image -> outcome (list (list Q)).

Abbreviation Analyzer := (Analyzer image).
Abbreviation sweep := (sweep image predict).
Abbreviation analyze_layer := (analyze_layer image predict).
Abbreviation analyze_each := (analyze_each image predict).
Abbreviation analyze_all_layers := (analyze_all_layers image predict).
Abbreviation accuracy_of := (accuracy_of image predict).

Lemma accuracy_of_valid (m : Model) (images : list image)
  (labels : list (list Q)) (acc : pyfloat) :
  accuracy_of m images labels = Returned acc -> valid_accuracy acc.
Proof.
  unfold accuracy_of.
  destruct (predict m images); simpl; [|discriminate].
  destruct (omap argmax _); simpl; [|discriminate].
  destruct (omap argmax labels); simpl; [|discriminate].
  destruct (labels_equal _ _); simpl; [|discriminate].
  intros [= <-]. apply mean_bool_valid.
Qed.

(** X7.  The accuracy [_evaluate_accuracy] computes is not-a-number or a
    fraction between 0 and 1, and it is not-a-number only when the forward
    pass gave no row or there is no label. *)
Theorem accuracy_is_nan_or_fraction (m : Model) (images : list image)
  (labels : list (list Q)) (acc : pyfloat) :
  accuracy_of m images labels = Returned acc ->
  valid_accuracy acc /\
  (acc = NaN -> predict m images = Returned [] \/ labels = []).
Proof.
  intros H. split; [exact (accuracy_of_valid _ _ _ _ H)|].
  revert H. unfold accuracy_of.
  destruct (predict m images) as [rows|]; simpl; [|discriminate].
  destruct (omap argmax rows) as [p|] eqn:Ep; simpl; [|discriminate].
  destruct (omap argmax labels) as [t|] eqn:Et; simpl; [|discriminate].
  assert (Hp : p = [] -> rows = []).
  { intros ->. destruct rows; [reflexivity|]. simpl in Ep.
    destruct (argmax l); simpl in Ep; [|discriminate].
    destruct (omap argmax rows); discriminate. }
  assert (Ht : t = [] -> labels = []).
  { intros ->. destruct labels as [|l labels]; [reflexivity|]. simpl in Et.
    destruct (argmax l); simpl in Et; [|discriminate].
    destruct (omap argmax labels); discriminate. }
  unfold labels_equal.
  destruct (Nat.eqb (List.length p) (List.length t)) eqn:El.
  - simpl. intros [= <-] Hnan.
    destruct p as [|x p]; [left; rewrite Hp; reflexivity|].
    destruct t as [|y t]; [discriminate|]. discriminate.
  - destruct p as [|x [|x' p]].
    + destruct t as [|y [|y' t]]; simpl; try discriminate.
      intros [= <-] _. left. rewrite Hp; reflexivity.
    + simpl. intros [= <-] Hnan. destruct t; [right; auto | discriminate].
    + destruct t as [|y [|y' t]]; simpl; try discriminate.
      intros [= <-] Hnan. discriminate.
Qed.

(** What a returning call of [analyze_layer] did. *)
Lemma analyze_layer_returned (name : string) (lo hi : Z) (a a' : Analyzer)
  (optimal : Z) (c : curve) :
  analyze_layer name (lo, hi) a = (Returned (optimal, c), a') ->
  model a' = model a /\ layer_names a' = layer_names a /\
  test_images a' = test_images a /\ test_labels a' = test_labels a /\
  sensitivity_map a'
  = dict_set String.eqb (sensitivity_map a) name (LayerInfo optimal c) /\
  exists orig a1 baseline,
    dict_get String.eqb (model a) name = Some orig /\
    sweep name orig (range lo (hi + 1)) []
      (with_stdout image (stdout a ++ [[VStr name]]) a) = (Returned c, a1) /\
    dict_get Z.eqb c hi = Some baseline /\
    select_bits c baseline (range lo (hi + 1)) hi = Returned optimal.
Proof.
  rewrite analyze_layer_run. cbv zeta.
  destruct (dict_get String.eqb (model a) name) as [orig|] eqn:Eg; [|discriminate].
  destruct (sweep name orig (range lo (hi + 1)) []
              (with_stdout image (stdout a ++ [[VStr name]]) a))
    as [[c0|e] a1] eqn:Es; [|discriminate].
  pose proof (sweep_spec image predict name orig _ _ _ _ _ Es)
    as ((Hi & Hl & Hn) & Hs & Hm).
  simpl in Hi, Hl, Hn, Hs, Hm.
  unfold dict_index.
  destruct (dict_get Z.eqb c0 hi) as [baseline|] eqn:Eb; [|discriminate].
  destruct (select_bits c0 baseline (range lo (hi + 1)) hi) as [r|] eqn:Esel;
    [|discriminate].
  intros [= <- <- <-]. simpl.
  assert (Hback : dict_set String.eqb (model a1) name orig = model a).
  { destruct Hm as [-> | [q ->]].
    - apply dict_set_same. exact Eg.
    - rewrite (dict_set_twice _ String.eqb_eq). apply dict_set_same. exact Eg. }
  repeat split; try assumption.
  - rewrite Hs. reflexivity.
  - exists orig, a1, baseline. auto.
Qed.

(** X8.  The two ways [analyze_layer] fails before any forward pass: an
    unknown layer raises [ValueError], and a known layer with an empty range
    ([hi < lo]) raises [KeyError] when the baseline is read.  Neither changes
    the model's weights or the sensitivity map. *)
Theorem analyze_layer_error_cases (name : string) (lo hi : Z) (a : Analyzer) :
  (dict_get String.eqb (model a) name = None ->
   exists a',
     analyze_layer name (lo, hi) a = (Raised ValueError, a') /\
     model a' = model a /\ sensitivity_map a' = sensitivity_map a) /\
  (dict_get String.eqb (model a) name <> None -> hi < lo ->
   exists a',
     analyze_layer name (lo, hi) a = (Raised KeyError, a') /\
     model a' = model a /\ sensitivity_map a' = sensitivity_map a).
Proof.
  split.
  - intros Hg. rewrite analyze_layer_run. cbv zeta. rewrite Hg.
    eexists. split; [reflexivity|]. auto.
  - intros Hg Hr. rewrite analyze_layer_run. cbv zeta.
    destruct (dict_get String.eqb (model a) name) as [orig|] eqn:Eg;
      [|congruence].
    rewrite range_nil by lia. simpl.
    eexists. split; [reflexivity|]. simpl.
    split; [apply dict_set_same; exact Eg | reflexivity].
Qed.

(** X9.  A returning [analyze_layer] stores the record of the layer, made
    of the returned [optimal_bits] and curve, under the layer's name, and
    leaves the records of all other layers as they were. *)
Theorem analyze_layer_stores_record (name : string) (lo hi : Z) (a a' : Analyzer)
  (optimal : Z) (c : curve) :
  analyze_layer name (lo, hi) a = (Returned (optimal, c), a') ->
  dict_get String.eqb (sensitivity_map a') name = Some (LayerInfo optimal c) /\
  forall other,
    other <> name ->
    dict_get String.eqb (sensitivity_map a') other
    = dict_get String.eqb (sensitivity_map a) other.
Proof.
  intros H. apply analyze_layer_returned in H.
  destruct H as (_ & _ & _ & _ & -> & _). split.
  - apply dict_get_set_same. apply String.eqb_eq.
  - intros other Hne. apply dict_get_set_other; [apply String.eqb_eq | congruence].
Qed.

Lemma sweep_valid (name : string) (orig : weights) :
  forall (bs : list Z) (c : curve) (a : Analyzer) c' a',
    Forall (fun p => valid_accuracy (snd p)) c ->
    sweep name orig bs c a = (Returned c', a') ->
    Forall (fun p => valid_accuracy (snd p)) c'.
Proof.
  induction bs as [|b bs IH]; intros c a c' a' Hc H.
  - injection H as <- _. exact Hc.
  - rewrite sweep_cons in H.
    destruct (_quantize_weights orig b); [|discriminate]. cbv zeta in H.
    destruct (accuracy_of _ _ _) as [acc|] eqn:Ea; [|discriminate].
    apply IH in H; [exact H|].
    apply accuracy_of_valid in Ea. clear - Hc Ea.
    induction c as [|[k v] c IHc]; simpl.
    + constructor; [exact Ea | constructor].
    + inversion Hc; subst. destruct (Z.eqb k b); constructor; auto.
Qed.

Lemma dict_get_Forall {K V : Type} (eqb : K -> K -> bool) (P : K * V -> Prop)
  (d : list (K * V)) (k : K) (v : V) :
  (forall x y, eqb x y = true -> x = y) ->
  Forall P d -> dict_get eqb d k = Some v -> P (k, v).
Proof.
  intros Heq Hall. induction Hall as [|[k' v'] d Hx _ IH]; simpl; [discriminate|].
  destruct (eqb k' k) eqn:E; [|exact IH].
  intros [= <-]. apply Heq in E. subst. exact Hx.
Qed.

(** X10.  The fallback of the selection is taken only for a missing
    measurement: when [analyze_layer] returns for a range with [lo <= hi],
    the baseline is a valid accuracy; if it is a number, the returned
    [optimal_bits] reaches the threshold of 0.99 times the baseline (the
    widest candidate always does), and if it is not-a-number, no comparison
    succeeds and [optimal_bits] is [hi]. *)
Theorem analyze_layer_threshold_reached (name : string) (lo hi : Z)
  (a a' : Analyzer) (optimal : Z) (c : curve) :
  lo <= hi ->
  analyze_layer name (lo, hi) a = (Returned (optimal, c), a') ->
  exists baseline,
    dict_get Z.eqb c hi = Some baseline /\ valid_accuracy baseline /\
    match baseline with
    | NaN => optimal = hi
    | Fin _ => meets c baseline optimal
    end.
Proof.
  intros Hle H. apply analyze_layer_returned in H.
  destruct H as (_ & _ & _ & _ & _ & orig & a1 & baseline & _ & Hs & Hb & Hsel).
  exists baseline. split; [exact Hb|].
  assert (Hv : valid_accuracy baseline).
  { apply sweep_valid in Hs; [|constructor].
    apply (dict_get_Forall Z.eqb _ c hi baseline (fun x y => proj1 (Z.eqb_eq x y)) Hs Hb). }
  split; [exact Hv|].
  apply select_bits_spec in Hsel.
  destruct baseline as [|q].
  - destruct Hsel as [(pre & post & _ & (acc & _ & Hge) & _) | [-> _]];
      [|reflexivity].
    destruct acc; discriminate.
  - destruct Hsel as [(pre & post & _ & Hr & _) | [-> _]]; [exact Hr|].
    exists (Fin q). split; [exact Hb|]. simpl.
    apply Qle_bool_iff. simpl in Hv. unfold accuracy_threshold.
    destruct Hv as [Hv _]. nra.
Qed.

Lemma analyze_each_returned (names : list string) :
  forall a a' : Analyzer,
    analyze_each names a = (Returned tt, a') ->
    model a' = model a /\ layer_names a' = layer_names a /\
    (forall n, In n names ->
       exists info, dict_get String.eqb (sensitivity_map a') n = Some info) /\
    (forall n info,
       dict_get String.eqb (sensitivity_map a) n = Some info ->
       exists info', dict_get String.eqb (sensitivity_map a') n = Some info').
Proof.
  induction names as [|n names IH]; intros a a' H.
  - injection H as <-. repeat split; [intros ? [] | eauto].
  - simpl in H. unfold bind in H.
    destruct (analyze_layer n default_bit_range a) as [[[opt c]|e] a1] eqn:E;
      [|discriminate].
    unfold default_bit_range in E.
    apply analyze_layer_returned in E.
    destruct E as (Hm & Hn & _ & _ & Hs & _).
    apply IH in H. destruct H as (Hm' & Hn' & Hnew & Hold).
    split; [congruence|]. split; [congruence|].
    assert (Hkeep : forall k info,
               dict_get String.eqb (sensitivity_map a) k = Some info ->
               exists info', dict_get String.eqb (sensitivity_map a1) k = Some info').
    { intros k info Hk. rewrite Hs. destruct (String.eqb_spec n k) as [->|Hne].
      - rewrite (dict_get_set_same _ String.eqb_eq). eauto.
      - rewrite (dict_get_set_other _ String.eqb_eq) by exact Hne. eauto. }
    split.
    + intros k [<- | Hin]; [|auto].
      apply (Hold n (LayerInfo opt c)). rewrite Hs.
      apply dict_get_set_same. apply String.eqb_eq.
    + intros k info Hk. destruct (Hkeep k info Hk) as [info' Hk']. eauto.
Qed.

(** X11.  When [analyze_all_layers] returns, the model's weights are the
    ones before the call, the returned map is the analyzer's
    [sensitivity_map], and it has a record for every name in
    [layer_names]. *)
Theorem analyze_all_layers_returned (a a' : Analyzer)
  (result : list (string * layer_info)) :
  analyze_all_layers a = (Returned result, a') ->
  model a' = model a /\ result = sensitivity_map a' /\
  forall n, In n (layer_names a) ->
    exists info, dict_get String.eqb result n = Some info.
Proof.
  unfold analyze_all_layers, bind, get. simpl.
  destruct (analyze_each _ _) as [[[]|e] a1] eqn:E; [|discriminate].
  intros [= <- <-]. apply analyze_each_returned in E.
  destruct E as (Hm & _ & Hnew & _). simpl in Hm.
  split; [exact Hm|]. split; [reflexivity | exact Hnew].
Qed.
End AnalyzerMore.

Lemma analyze_layer_error_cases_witness :
  (dict_get String.eqb (model demo_analyzer) "conv9" = None /\
   exists a',
     analyze_layer (list Q) (linear_predict "conv1") "conv9" (4, 16) demo_analyzer
       = (Raised ValueError, a') /\
     model a' = model demo_analyzer /\
     sensitivity_map a' = sensitivity_map demo_analyzer) /\
  (dict_get String.eqb (model demo_analyzer) "conv1" <> None /\ 4 < 8 /\
   exists a',
     analyze_layer (list Q) (linear_predict "conv1") "conv1" (8, 4) demo_analyzer
       = (Raised KeyError, a') /\
     model a' = model demo_analyzer /\
     sensitivity_map a' = sensitivity_map demo_analyzer).
Proof.
  assert (H1 : dict_get String.eqb (model demo_analyzer) "conv9" = None)
    by reflexivity.
  assert (H2 : dict_get String.eqb (model demo_analyzer) "conv1" <> None)
    by discriminate.
  assert (H3 : 4 < 8) by lia.
  split.
  - split; [exact H1|].
    exact (proj1 (analyze_layer_error_cases (list Q) (linear_predict "conv1")
                    "conv9" 4 16 demo_analyzer) H1).
  - split; [exact H2|]. split; [exact H3|].
    exact (proj2 (analyze_layer_error_cases (list Q) (linear_predict "conv1")
                    "conv1" 8 4 demo_analyzer) H2 H3).
Defined.

Lemma accuracy_is_nan_or_fraction_witness :
  accuracy_of (list Q) (linear_predict "conv1") (model demo_analyzer)
    demo_images demo_labels = Returned (Fin (4 # 4)) /\
  valid_accuracy (Fin (4 # 4)) /\
  (Fin (4 # 4) = NaN ->
   linear_predict "conv1" (model demo_analyzer) demo_images = Returned [] \/
   demo_labels = []).
Proof.
  assert (H : accuracy_of (list Q) (linear_predict "conv1") (model demo_analyzer)
                demo_images demo_labels = Returned (Fin (4 # 4)))
    by (vm_compute; reflexivity).
  split; [exact H|].
  exact (accuracy_is_nan_or_fraction (list Q) (linear_predict "conv1")
           (model demo_analyzer) demo_images demo_labels (Fin (4 # 4)) H).
Defined.

Lemma analyze_layer_stores_record_witness :
  let r :=
    analyze_layer (list Q) (linear_predict "conv1") "conv1" (1, 6) demo_analyzer in
  let c := [(1, Fin (2 # 4)); (2, Fin (2 # 4)); (3, Fin (2 # 4));
            (4, Fin (4 # 4)); (5, Fin (4 # 4)); (6, Fin (4 # 4))] in
  r = (Returned (4, c), snd r) /\
  dict_get String.eqb (sensitivity_map (snd r)) "conv1" = Some (LayerInfo 4 c) /\
  forall other,
    other <> "conv1" ->
    dict_get String.eqb (sensitivity_map (snd r)) other
    = dict_get String.eqb (sensitivity_map demo_analyzer) other.
Proof.
  intros r c.
  assert (Hrun : r = (Returned (4, c), snd r)) by (vm_compute; reflexivity).
  split; [exact Hrun|].
  exact (analyze_layer_stores_record (list Q) (linear_predict "conv1") "conv1"
           1 6 demo_analyzer (snd r) 4 c Hrun).
Defined.

Lemma analyze_layer_threshold_reached_witness :
  let r :=
    analyze_layer (list Q) (linear_predict "conv1") "conv1" (1, 6) demo_analyzer in
  let c := [(1, Fin (2 # 4)); (2, Fin (2 # 4)); (3, Fin (2 # 4));
            (4, Fin (4 # 4)); (5, Fin (4 # 4)); (6, Fin (4 # 4))] in
  1 <= 6 /\ r = (Returned (4, c), snd r) /\
  exists baseline,
    dict_get Z.eqb c 6 = Some baseline /\ valid_accuracy baseline /\
    match baseline with
    | NaN => 4 = 6
    | Fin _ => meets c baseline 4
    end.
Proof.
  intros r c.
  assert (Hle : 1 <= 6) by lia.
  assert (Hrun : r = (Returned (4, c), snd r)) by (vm_compute; reflexivity).
  split; [exact Hle|]. split; [exact Hrun|].
  exact (analyze_layer_threshold_reached (list Q) (linear_predict "conv1")
           "conv1" 1 6 demo_analyzer (snd r) 4 c Hle Hrun).
Defined.

Lemma analyze_all_layers_returned_witness :
  let r := analyze_all_layers (list Q) (linear_predict "conv2") demo_analyzer2 in
  layer_names demo_analyzer2 = ["conv1"; "conv2"] /\
  r = (Returned (sensitivity_map (snd r)), snd r) /\
  model (snd r) = model demo_analyzer2 /\
  sensitivity_map (snd r) = sensitivity_map (snd r) /\
  forall n, In n (layer_names demo_analyzer2) ->
    exists info, dict_get String.eqb (sensitivity_map (snd r)) n = Some info.
Proof.
  intros r.
  assert (Hrun : r = (Returned (sensitivity_map (snd r)), snd r))
    by (vm_compute; reflexivity).
  split; [reflexivity|]. split; [exact Hrun|].
  exact (analyze_all_layers_returned (list Q) (linear_predict "conv2")
           demo_analyzer2 (snd r) (sensitivity_map (snd r)) Hrun).
Defined.

(* ================================================================== *)
(** ** The clustering quantizer, continued *)

Lemma keys_dict_set_same_keys {K V W : Type} (eqb : K -> K -> bool)
  (d1 : list (K * V)) :
  forall (d2 : list (K * W)) (k : K) (v : V) (w : W),
    keys d1 = keys d2 ->
    keys (dict_set eqb d1 k v) = keys (dict_set eqb d2 k w).
Proof.
  induction d1 as [|[k1 v1] d1 IH]; intros [|[k2 w2] d2] k v w H;
    simpl in *; try discriminate; [reflexivity|].
  injection H as -> H. destruct (eqb k2 k); simpl; f_equal; auto.
Qed.

Section ClusteringMore.
Variable kmeans_fit_predict : Z -> list Q -> outcome (list Z * list Q).

(** The run of [quantize_layer_weights] once the clustering returned. *)
Lemma quantize_layer_weights_after_fit (w : ndarray Q) (name : string)
  (q : Quantizer) (labels : list Z) (centroids : list Q) :
  kmeans_fit_predict (num_clusters q) (data w) = Returned (labels, centroids) ->
  quantize_layer_weights kmeans_fit_predict w name q =
  let k := num_clusters q in
  let out := console q ++ [[VStr name]] ++ [[VInt k]] in
  match reshape labels (shape w) with
  | Raised e => (Raised e, MkQuantizer k (codebooks q) (indices q) out)
  | Returned reshaped =>
      let ix := amap (if k <=? 256 then astype_uint8 else astype_uint16) reshaped in
      let stored :=
        MkQuantizer k (dict_set String.eqb (codebooks q) name centroids)
          (dict_set String.eqb (indices q) name ix) in
      match index_bits_of k with
      | Raised e => (Raised e, stored out)
      | Returned index_bits =>
          match true_div (size w * 32) (size w * index_bits + k * 32) with
          | Raised e => (Raised e, stored out)
          | Returned ratio =>
              (Returned (ix, centroids),
               stored (out
                       ++ [[VFloat (Fin (inject_Z (size w * 32) / 8 / 1024))]]
                       ++ [[VFloat (Fin (inject_Z (size w * index_bits + k * 32)
                                         / 8 / 1024))]]
                       ++ [[VFloat (Fin ratio)]]))
          end
      end
  end.
Proof.
  intros Hkm.
  unfold quantize_layer_weights, bind, qprint, get, lift, store_codebook,
    store_indices, ret. simpl. rewrite Hkm. simpl.
  rewrite <- !app_assoc. simpl.
  destruct (reshape labels (shape w)); [|reflexivity]. simpl.
  destruct (index_bits_of (num_clusters q)); [|reflexivity].
  destruct (true_div _ _); [|reflexivity].
  simpl. rewrite <- !app_assoc. reflexivity.
Qed.

(** X12.  A returning [quantize_layer_weights] stores what it returns: the
    codebook and the index tensor are the entries of the layer afterwards,
    the index tensor has the shape of the weights, the entries of other
    layers and the cluster count are unchanged. *)
Theorem quantize_layer_weights_stores (w : ndarray Q) (name : string)
  (q q' : Quantizer) (ix : ndarray Z) (codebook : list Q) :
  quantize_layer_weights kmeans_fit_predict w name q = (Returned (ix, codebook), q') ->
  dict_get String.eqb (codebooks q') name = Some codebook /\
  dict_get String.eqb (indices q') name = Some ix /\
  shape ix = shape w /\
  num_clusters q' = num_clusters q /\
  forall other,
    other <> name ->
    dict_get String.eqb (codebooks q') other = dict_get String.eqb (codebooks q) other /\
    dict_get String.eqb (indices q') other = dict_get String.eqb (indices q) other.
Proof.
  destruct (kmeans_fit_predict (num_clusters q) (data w)) as [[labels cents]|e] eqn:Hkm.
  - rewrite (quantize_layer_weights_after_fit _ _ _ _ _ Hkm). cbv zeta.
    unfold reshape.
    destruct (Nat.eqb _ _); [|discriminate]. simpl.
    destruct (index_bits_of _); [|discriminate].
    destruct (true_div _ _); [|discriminate].
    intros [= <- <- <-]. simpl.
    split; [apply dict_get_set_same, String.eqb_eq|].
    split; [apply dict_get_set_same, String.eqb_eq|].
    split; [reflexivity|]. split; [reflexivity|].
    intros other Hne.
    split; apply dict_get_set_other; try apply String.eqb_eq; congruence.
  - unfold quantize_layer_weights, bind, qprint, get, lift. simpl.
    rewrite Hkm. discriminate.
Qed.

(** X13.  On every exit path of [quantize_layer_weights], normal or raising,
    the layers that have a codebook are the layers that have an index
    tensor, if that was so before the call. *)
Theorem quantize_layer_weights_keeps_pairing (w : ndarray Q) (name : string)
  (q : Quantizer) :
  keys (codebooks q) = keys (indices q) ->
  let q' := snd (quantize_layer_weights kmeans_fit_predict w name q) in
  keys (codebooks q') = keys (indices q').
Proof.
  intros Hk.
  destruct (kmeans_fit_predict (num_clusters q) (data w)) as [[labels cents]|e] eqn:Hkm.
  - rewrite (quantize_layer_weights_after_fit _ _ _ _ _ Hkm). cbv zeta.
    destruct (reshape labels (shape w)); [|exact Hk].
    destruct (index_bits_of _);
      [|simpl; apply keys_dict_set_same_keys; exact Hk].
    destruct (true_div _ _); simpl; apply keys_dict_set_same_keys; exact Hk.
  - unfold quantize_layer_weights, bind, qprint, get, lift. simpl.
    rewrite Hkm. exact Hk.
Qed.

(** X14.  The indices a returning [quantize_layer_weights] gives are the
    labels of the clustering cast to [uint8] for at most 256 clusters and to
    [uint16] otherwise: every index fits that type, and labels between 0 and
    [k - 1] are kept as they are for [k <= 65536]. *)
Theorem quantize_layer_weights_indices (w : ndarray Q) (name : string)
  (q q' : Quantizer) (ix : ndarray Z) (codebook : list Q) :
  quantize_layer_weights kmeans_fit_predict w name q = (Returned (ix, codebook), q') ->
  exists labels,
    kmeans_fit_predict (num_clusters q) (data w) = Returned (labels, codebook) /\
    Forall (fun i => 0 <= i < (if num_clusters q <=? 256 then 2 ^ 8 else 2 ^ 16))
      (data ix) /\
    (num_clusters q <= 65536 ->
     Forall (fun l => 0 <= l < num_clusters q) labels ->
     data ix = labels).
Proof.
  destruct (kmeans_fit_predict (num_clusters q) (data w)) as [[labels cents]|e] eqn:Hkm.
  - rewrite (quantize_layer_weights_after_fit _ _ _ _ _ Hkm). cbv zeta.
    unfold reshape.
    destruct (Nat.eqb _ _); [|discriminate]. simpl.
    destruct (index_bits_of _); [|discriminate].
    destruct (true_div _ _); [|discriminate].
    intros [= <- <- <-]. exists labels. split; [reflexivity|]. simpl.
    destruct (Z.leb_spec (num_clusters q) 256) as [Hs | Hl].
    + split.
      * apply Forall_forall. intros i Hi. apply in_map_iff in Hi.
        destruct Hi as (l & <- & _). unfold astype_uint8. apply Z.mod_pos_bound. lia.
      * intros _ Hall. rewrite <- (map_id labels) at 2. apply map_ext_in.
        intros l Hl. rewrite Forall_forall in Hall. specialize (Hall l Hl).
        unfold astype_uint8. apply Z.mod_small. change (2 ^ 8) with 256. lia.
    + split.
      * apply Forall_forall. intros i Hi. apply in_map_iff in Hi.
        destruct Hi as (l & <- & _). unfold astype_uint16. apply Z.mod_pos_bound. lia.
      * intros Hk Hall. rewrite <- (map_id labels) at 2. apply map_ext_in.
        intros l Hl'. rewrite Forall_forall in Hall. specialize (Hall l Hl').
        unfold astype_uint16. apply Z.mod_small. change (2 ^ 16) with 65536. lia.
  - unfold quantize_layer_weights, bind, qprint, get, lift. simpl.
    rewrite Hkm. discriminate.
Qed.

(** X15.  The printed compression ratio of a returning call exceeds 1
    exactly when [32 * k < n * (32 - ceil(log2 k))] for [n] weights and [k]
    clusters: with few weights or many clusters the encoding is larger than
    the weights. *)
Theorem quantize_layer_weights_ratio_above_one (w : ndarray Q) (name : string)
  (q q' : Quantizer) (ix : ndarray Z) (codebook : list Q) :
  quantize_layer_weights kmeans_fit_predict w name q = (Returned (ix, codebook), q') ->
  exists ratio,
    last (console q') [] = [VFloat (Fin ratio)] /\
    ((1 < ratio)%Q <->
     32 * num_clusters q < size w * (32 - Z.log2_up (num_clusters q))).
Proof.
  destruct (kmeans_fit_predict (num_clusters q) (data w)) as [[labels cents]|e] eqn:Hkm.
  - rewrite (quantize_layer_weights_after_fit _ _ _ _ _ Hkm). cbv zeta.
    destruct (reshape labels (shape w)); [|discriminate].
    unfold index_bits_of.
    destruct (Z.ltb_spec (num_clusters q) 0); [discriminate|].
    destruct (Z.eqb_spec (num_clusters q) 0); [discriminate|].
    unfold true_div.
    destruct (Z.eqb_spec (size w * Z.log2_up (num_clusters q) + num_clusters q * 32) 0);
      [discriminate|].
    intros [= <- <- <-]. eexists. split.
    { simpl.
      match goal with
      | |- last (?l ++ [?x; ?y; ?z]) _ = _ =>
          change (l ++ [x; y; z]) with (l ++ [x; y] ++ [z]);
          rewrite app_assoc; apply last_last
      end. }
    pose proof (Z.log2_up_nonneg (num_clusters q)) as Hlog.
    assert (Hn : 0 <= size w) by (unfold size; lia).
    set (den := size w * Z.log2_up (num_clusters q) + num_clusters q * 32) in *.
    assert (Hden : 0 < den) by (unfold den; nia).
    assert (HdenQ : (0 < inject_Z den)%Q).
    { change 0%Q with (inject_Z 0). rewrite <- Zlt_Qlt. exact Hden. }
    split.
    + intros H1.
      assert (H2 : (inject_Z den < inject_Z (size w * 32))%Q).
      { apply (Qmult_lt_r _ _ (/ inject_Z den)); [apply Qinv_lt_0_compat; exact HdenQ|].
        rewrite Qmult_inv_r by lra. exact H1. }
      rewrite <- Zlt_Qlt in H2. unfold den in H2. nia.
    + intros H1. apply Qlt_shift_div_l; [exact HdenQ|].
      rewrite Qmult_1_l. rewrite <- Zlt_Qlt. unfold den. nia.
  - unfold quantize_layer_weights, bind, qprint, get, lift. simpl.
    rewrite Hkm. discriminate.
Qed.
End ClusteringMore.

Lemma quantize_layer_weights_stores_witness :
  let r := quantize_layer_weights lloyd_kmeans demo_512 "conv1_pw"
             (quantizer_init 16) in
  exists ix codebook,
    r = (Returned (ix, codebook), snd r) /\
    dict_get String.eqb (codebooks (snd r)) "conv1_pw" = Some codebook /\
    dict_get String.eqb (indices (snd r)) "conv1_pw" = Some ix /\
    shape ix = shape demo_512 /\
    num_clusters (snd r) = num_clusters (quantizer_init 16) /\
    forall other,
      other <> "conv1_pw" ->
      dict_get String.eqb (codebooks (snd r)) other
      = dict_get String.eqb (codebooks (quantizer_init 16)) other /\
      dict_get String.eqb (indices (snd r)) other
      = dict_get String.eqb (indices (quantizer_init 16)) other.
Proof.
  intros r.
  destruct r as [[[ix cb]|e] q'] eqn:Hr; [|exfalso; vm_compute in Hr; discriminate].
  exists ix, cb. split; [reflexivity|].
  exact (quantize_layer_weights_stores lloyd_kmeans demo_512 "conv1_pw"
           (quantizer_init 16) q' ix cb Hr).
Defined.

Lemma quantize_layer_weights_keeps_pairing_witness :
  keys (codebooks (quantizer_init 16)) = keys (indices (quantizer_init 16)) /\
  let q' := snd (quantize_layer_weights lloyd_kmeans demo_512 "conv1_pw"
                   (quantizer_init 16)) in
  keys (codebooks q') = keys (indices q').
Proof.
  assert (H : keys (codebooks (quantizer_init 16)) = keys (indices (quantizer_init 16)))
    by reflexivity.
  split; [exact H|].
  exact (quantize_layer_weights_keeps_pairing lloyd_kmeans demo_512 "conv1_pw"
           (quantizer_init 16) H).
Defined.

Lemma quantize_layer_weights_indices_witness :
  let r := quantize_layer_weights lloyd_kmeans demo_512 "conv1_pw"
             (quantizer_init 16) in
  exists ix codebook,
    r = (Returned (ix, codebook), snd r) /\
    exists labels,
      lloyd_kmeans (num_clusters (quantizer_init 16)) (data demo_512)
      = Returned (labels, codebook) /\
      Forall (fun i => 0 <= i < (if num_clusters (quantizer_init 16) <=? 256
                                 then 2 ^ 8 else 2 ^ 16))
        (data ix) /\
      (num_clusters (quantizer_init 16) <= 65536 ->
       Forall (fun l => 0 <= l < num_clusters (quantizer_init 16)) labels ->
       data ix = labels).
Proof.
  intros r.
  destruct r as [[[ix cb]|e] q'] eqn:Hr; [|exfalso; vm_compute in Hr; discriminate].
  exists ix, cb. split; [reflexivity|].
  exact (quantize_layer_weights_indices lloyd_kmeans demo_512 "conv1_pw"
           (quantizer_init 16) q' ix cb Hr).
Defined.

Lemma quantize_layer_weights_ratio_above_one_witness :
  let r := quantize_layer_weights lloyd_kmeans demo_512 "conv1_pw"
             (quantizer_init 16) in
  exists ix codebook,
    r = (Returned (ix, codebook), snd r) /\
    exists ratio,
      last (console (snd r)) [] = [VFloat (Fin ratio)] /\
      ((1 < ratio)%Q <->
       32 * num_clusters (quantizer_init 16)
       < size demo_512 * (32 - Z.log2_up (num_clusters (quantizer_init 16)))).
Proof.
  intros r.
  destruct r as [[[ix cb]|e] q'] eqn:Hr; [|exfalso; vm_compute in Hr; discriminate].
  exists ix, cb. split; [reflexivity|].
  exact (quantize_layer_weights_ratio_above_one lloyd_kmeans demo_512 "conv1_pw"
           (quantizer_init 16) q' ix cb Hr).
Defined.

(** ** [dequantize_weights] *)

Lemma np_take_spec (codebook : list Q) (i : Z) :
  let n := Z.of_nat (List.length codebook) in
  match np_take codebook i with
  | Returned v =>
      - n <= i < n /\ In v codebook /\
      v = nth (Z.to_nat (i mod n)) codebook 0%Q
  | Raised e => e = IndexError /\ (i < - n \/ n <= i)
  end.
Proof.
  intros n. unfold np_take. fold n.
  destruct (Z.leb_spec 0 i), (Z.ltb_spec i n); simpl.
  - split; [lia|]. rewrite Z.mod_small by lia.
    split; [apply nth_In; lia | reflexivity].
  - destruct (Z.leb_spec (- n) i), (Z.ltb_spec i 0); simpl; try lia;
      (split; [reflexivity | lia]).
  - destruct (Z.leb_spec (- n) i), (Z.ltb_spec i 0); simpl; try lia.
    + split; [lia|].
      replace (i mod n) with (n + i)
        by (apply Z.mod_unique with (q := -1); lia).
      split; [apply nth_In; lia | reflexivity].
    + split; [reflexivity | lia].
  - exfalso. unfold n in *. lia.
Qed.

(** X16.  [dequantize_weights] gathers: when it returns, the result has the
    shape of the index tensor and every value is the codebook entry at the
    index (a negative index counted from the end), so an element of the
    codebook; it raises [IndexError] exactly when an index lies outside
    [-n, n) for a codebook of [n] entries. *)
Theorem dequantize_weights_gathers (ix : ndarray Z) (codebook : list Q) :
  let n := Z.of_nat (List.length codebook) in
  match dequantize_weights ix codebook with
  | Returned w =>
      shape w = shape ix /\
      Forall2 (fun i v => - n <= i < n /\ In v codebook /\
                          v = nth (Z.to_nat (i mod n)) codebook 0%Q)
        (data ix) (data w)
  | Raised e =>
      e = IndexError /\ Exists (fun i => i < - n \/ n <= i) (data ix)
  end.
Proof.
  intros n. unfold dequantize_weights.
  assert (H : match omap (np_take codebook) (data ix) with
              | Returned vs =>
                  Forall2 (fun i v => - n <= i < n /\ In v codebook /\
                                      v = nth (Z.to_nat (i mod n)) codebook 0%Q)
                    (data ix) vs
              | Raised e =>
                  e = IndexError /\ Exists (fun i => i < - n \/ n <= i) (data ix)
              end).
  { induction (data ix) as [|i l IH]; simpl; [constructor|].
    pose proof (np_take_spec codebook i) as Hi. cbv zeta in Hi. fold n in Hi.
    destruct (np_take codebook i) as [v|e]; simpl.
    - destruct (omap (np_take codebook) l) as [vs|e]; simpl.
      + constructor; assumption.
      + destruct IH as [-> IH]. split; [reflexivity | right; exact IH].
    - destruct Hi as [-> Hi]. split; [reflexivity | left; exact Hi]. }
  destruct (omap (np_take codebook) (data ix)); simpl; [split; [reflexivity | exact H] | exact H].
Qed.

Section RoundTrip.
Variable kmeans_fit_predict : Z -> list Q -> outcome (list Z * list Q).

(** X17.  Quantizing and dequantizing replaces every weight by the centroid
    of its cluster: when the clustering of [k] clusters, [1 <= k <= 65536],
    returns [k] centroids and one label in [0, k) per weight, the call
    returns, and [dequantize_weights] of its results is the tensor of the
    weights' shape holding [codebook[label]] for each weight. *)
Theorem quantize_then_dequantize (w : ndarray Q) (name : string) (q : Quantizer)
  (labels : list Z) (centroids : list Q) :
  1 <= num_clusters q <= 65536 ->
  kmeans_fit_predict (num_clusters q) (data w) = Returned (labels, centroids) ->
  List.length labels = fold_right Nat.mul 1%nat (shape w) ->
  Z.of_nat (List.length centroids) = num_clusters q ->
  Forall (fun l => 0 <= l < num_clusters q) labels ->
  exists ix q',
    quantize_layer_weights kmeans_fit_predict w name q
      = (Returned (ix, centroids), q') /\
    dequantize_weights ix centroids
    = Returned (NdArray (shape w)
                  (map (fun l => nth (Z.to_nat l) centroids 0%Q) labels)).
Proof.
  intros Hk Hkm Hlen Hcents Hlabels.
  rewrite (quantize_layer_weights_after_fit _ _ _ _ _ _ Hkm). cbv zeta.
  unfold reshape. rewrite Hlen, Nat.eqb_refl.
  unfold index_bits_of.
  destruct (Z.ltb_spec (num_clusters q) 0); [lia|].
  destruct (Z.eqb_spec (num_clusters q) 0); [lia|].
  unfold true_div.
  pose proof (Z.log2_up_nonneg (num_clusters q)) as Hlog.
  assert (Hn : 0 <= size w) by (unfold size; lia).
  destruct (Z.eqb_spec (size w * Z.log2_up (num_clusters q) + num_clusters q * 32) 0);
    [nia|].
  eexists. eexists. split; [reflexivity|].
  unfold dequantize_weights, amap. cbn [data shape].
  assert (Hcast : map (if num_clusters q <=? 256 then astype_uint8 else astype_uint16)
                    labels = labels).
  { rewrite <- (map_id labels) at 2. apply map_ext_in. intros l Hl.
    rewrite Forall_forall in Hlabels. specialize (Hlabels l Hl).
    destruct (Z.leb_spec (num_clusters q) 256).
    - unfold astype_uint8. apply Z.mod_small. change (2 ^ 8) with 256. lia.
    - unfold astype_uint16. apply Z.mod_small. change (2 ^ 16) with 65536. lia. }
  rewrite Hcast.
  assert (Hg : omap (np_take centroids) labels
               = Returned (map (fun l => nth (Z.to_nat l) centroids 0%Q) labels)).
  { clear - Hlabels Hcents. induction Hlabels as [|l ls Hl _ IH]; [reflexivity|].
    simpl. unfold np_take at 1. rewrite Hcents.
    destruct (Z.leb_spec 0 l); [|lia]. destruct (Z.ltb_spec l (num_clusters q)); [|lia].
    simpl. rewrite IH. reflexivity. }
  rewrite Hg. reflexivity.
Qed.
End RoundTrip.

Lemma quantize_then_dequantize_witness :
  let fitted := lloyd_kmeans 16 (data demo_512) in
  1 <= 16 <= 65536 /\
  exists labels centroids,
    fitted = Returned (labels, centroids) /\
    List.length labels = fold_right Nat.mul 1%nat (shape demo_512) /\
    Z.of_nat (List.length centroids) = 16 /\
    Forall (fun l => 0 <= l < 16) labels /\
    exists ix q',
      quantize_layer_weights lloyd_kmeans demo_512 "conv1_pw" (quantizer_init 16)
        = (Returned (ix, centroids), q') /\
      dequantize_weights ix centroids
      = Returned (NdArray (shape demo_512)
                    (map (fun l => nth (Z.to_nat l) centroids 0%Q) labels)).
Proof.
  intros fitted.
  assert (Hk : 1 <= num_clusters (quantizer_init 16) <= 65536) by (simpl; lia).
  split; [exact Hk|].
  destruct fitted as [[labels centroids]|e] eqn:Hf;
    [|exfalso; vm_compute in Hf; discriminate].
  assert (Hall : List.length labels = fold_right Nat.mul 1%nat (shape demo_512) /\
                 Z.of_nat (List.length centroids) = num_clusters (quantizer_init 16) /\
                 Forall (fun l => 0 <= l < num_clusters (quantizer_init 16)) labels).
  { vm_compute in Hf. injection Hf as <- <-.
    split; [reflexivity|]. split; [reflexivity|].
    apply Forall_forall. intros l Hl. simpl.
    assert (Hb : forallb (fun l => (0 <=? l) && (l <? 16)) 
                   (map (fun i => Z.of_nat (i mod 16)) (seq 0 512)) = true)
      by (vm_compute; reflexivity).
    rewrite forallb_forall in Hb.
    assert (Hin : In l (map (fun i => Z.of_nat (i mod 16)) (seq 0 512))).
    { vm_compute. exact Hl. }
    specialize (Hb l Hin). apply andb_true_iff in Hb. lia. }
  destruct Hall as (H1 & H2 & H3).
  exists labels, centroids. split; [reflexivity|].
  split; [exact H1|]. split; [exact H2|]. split; [exact H3|].
  exact (quantize_then_dequantize lloyd_kmeans demo_512 "conv1_pw"
           (quantizer_init 16) labels centroids Hk Hf H1 H2 H3).
Defined.

(* ================================================================== *)
(** ** The export of the codebooks *)

Lemma int_of_float_spec (x : Q) :
  ((0 <= x -> inject_Z (int_of_float x) <= x /\ x < inject_Z (int_of_float x) + 1) /\
   (x <= 0 -> inject_Z (int_of_float x) - 1 < x /\ x <= inject_Z (int_of_float x)))%Q.
Proof.
  destruct x as [a b]. unfold int_of_float. cbn [Qnum Qden].
  unfold Qle, Qlt, Qplus, Qminus, Qopp, inject_Z. cbn [Qnum Qden].
  split; intros Ha.
  - assert (Ha' : 0 <= a) by lia.
    rewrite Z.quot_div_nonneg by lia.
    pose proof (Z.mul_div_le a (Z.pos b) ltac:(lia)).
    pose proof (Z.mul_succ_div_gt a (Z.pos b) ltac:(lia)).
    nia.
  - assert (Ha' : 0 <= - a) by lia.
    assert (Hq : a ÷ Z.pos b = - (- a / Z.pos b)).
    { rewrite <- (Z.opp_involutive a) at 1.
      rewrite Z.quot_opp_l by lia. rewrite Z.quot_div_nonneg by lia.
      reflexivity. }
    rewrite Hq.
    pose proof (Z.mul_div_le (- a) (Z.pos b) ltac:(lia)).
    pose proof (Z.mul_succ_div_gt (- a) (Z.pos b) ltac:(lia)).
    set (q := - a / Z.pos b) in *. unfold Z.succ in *. simpl. nia.
Qed.

(** X18.  The fixed-point value written for a centroid is the centroid
    times 1024 truncated toward zero: it is within one unit of [value * 1024]
    on the side of zero, so the error of the stored value is below [2^-10]
    and its magnitude never exceeds the centroid's. *)
Theorem fixed_point_truncates (value : Q) :
  let f := inject_Z (fixed_point_of value) in
  ((0 <= value -> 0 <= f /\ f <= value * 1024 /\ value * 1024 < f + 1) /\
   (value <= 0 -> f <= 0 /\ value * 1024 <= f /\ f - 1 < value * 1024))%Q.
Proof.
  intros f. unfold f, fixed_point_of.
  change (2 ^ 10)%Q with 1024%Q.
  destruct (int_of_float_spec (value * 1024)) as [Hp Hn].
  split; intros Hv.
  - destruct Hp as [H1 H2]; [lra|]. split; [|split; assumption].
    change 0%Q with (inject_Z 0). rewrite <- Zle_Qle.
    assert (H3 : (inject_Z (-1) < inject_Z (int_of_float (value * 1024)))%Q).
    { change (inject_Z (-1)) with (-1)%Q. lra. }
    rewrite <- Zlt_Qlt in H3. lia.
  - destruct Hn as [H1 H2]; [lra|]. split; [|split; assumption].
    change 0%Q with (inject_Z 0). rewrite <- Zle_Qle.
    assert (H3 : (inject_Z (int_of_float (value * 1024)) < inject_Z 1)%Q).
    { change (inject_Z 1) with 1%Q. lra. }
    rewrite <- Zlt_Qlt in H3. lia.
Qed.

Lemma string_length_append (s1 s2 : string) :
  String.length (s1 ++ s2) = (String.length s1 + String.length s2)%nat.
Proof. induction s1 as [|c s1 IH]; simpl; [reflexivity | rewrite IH; reflexivity]. Qed.

Lemma repeat_string_zero_length (n : nat) :
  String.length (repeat_string n "0") = n.
Proof. induction n as [|n IH]; simpl; [reflexivity | rewrite IH; reflexivity]. Qed.

Lemma bin_of_pos_length (p : positive) :
  forall acc, String.length (bin_of_pos p acc)
              = (Pos.size_nat p + String.length acc)%nat.
Proof.
  induction p as [p IH | p IH |]; intros acc; simpl;
    [rewrite IH | rewrite IH |]; simpl; lia.
Qed.

Lemma read_bits_bin_of_pos (p : positive) :
  forall (v : Z) (acc : string),
    read_bits v (bin_of_pos p acc)
    = read_bits (v * 2 ^ Z.of_nat (Pos.size_nat p) + Z.pos p) acc.
Proof.
  induction p as [p IH | p IH |]; intros v acc; cbn [bin_of_pos Pos.size_nat].
  - rewrite IH. cbn [read_bits]. simpl Ascii.eqb. cbv iota.
    rewrite Nat2Z.inj_succ, Z.pow_succ_r by lia. f_equal. lia.
  - rewrite IH. cbn [read_bits]. simpl Ascii.eqb. cbv iota.
    rewrite Nat2Z.inj_succ, Z.pow_succ_r by lia. f_equal. lia.
  - cbn [read_bits]. simpl Ascii.eqb. cbv iota. f_equal.
    change (Z.of_nat 1) with 1. rewrite Z.pow_1_r. lia.
Qed.

Lemma read_bits_zeros (n : nat) (s : string) :
  read_bits 0 (repeat_string n "0" ++ s) = read_bits 0 s.
Proof. induction n as [|n IH]; simpl; [reflexivity | exact IH]. Qed.

Lemma size_nat_bound (p : positive) :
  forall w : nat, Z.pos p < 2 ^ Z.of_nat w -> (Pos.size_nat p <= w)%nat.
Proof.
  induction p as [p IH | p IH |]; intros [|w] H; cbn [Pos.size_nat];
    try (change (2 ^ Z.of_nat 0) with 1 in H; lia).
  all: try (rewrite Nat2Z.inj_succ, Z.pow_succ_r in H by lia;
            apply le_n_S, IH; lia).
Qed.

Lemma bin_of_nonneg_facts (z : Z) (w : nat) :
  0 <= z < 2 ^ Z.of_nat w -> (0 < w)%nat ->
  (String.length (bin_of_nonneg z) <= w)%nat /\
  read_bits 0 (bin_of_nonneg z) = Some z.
Proof.
  intros Hz Hw. destruct z as [|p|p]; simpl; try lia.
  - split; [lia | reflexivity].
  - rewrite bin_of_pos_length. simpl.
    split; [pose proof (size_nat_bound p w (proj2 Hz)); lia|].
    rewrite read_bits_bin_of_pos. reflexivity.
Qed.

Lemma zfill_facts (width : nat) (s : string) (z : Z) :
  (String.length s <= width)%nat -> read_bits 0 s = Some z ->
  String.length (zfill width s) = width /\ read_bits 0 (zfill width s) = Some z.
Proof.
  intros Hl Hr. unfold zfill. split.
  - rewrite string_length_append, repeat_string_zero_length. lia.
  - rewrite read_bits_zeros. exact Hr.
Qed.

Lemma read_b_of_bits (s : string) (z : Z) :
  s <> EmptyString -> read_bits 0 s = Some z -> read_b s = Some z.
Proof.
  destruct s as [|c s]; [congruence|]. intros _ H. unfold read_b.
  destruct (Ascii.eqb c "-") eqn:E; [|exact H].
  apply Ascii.eqb_eq in E. subst c. simpl in H. discriminate.
Qed.

(** X19.  The 20-character binary field of a codebook line.  A fixed-point
    value from 0 up to [2^20 - 1] is written as exactly 20 binary digits that
    read back as the value.  A negative value above [-2^19] is written as a
    minus sign followed by the 19 digits of its magnitude, not as a two's
    complement pattern; it has 20 characters too and reads back as the
    value. *)
Theorem format_b_20_round_trip (z : Z) :
  (0 <= z < 2 ^ 20 ->
   String.length (format_b 20 z) = 20%nat /\
   read_bits 0 (format_b 20 z) = Some z /\
   read_b (format_b 20 z) = Some z) /\
  (- 2 ^ 19 < z < 0 ->
   format_b 20 z = ("-" ++ format_b 19 (- z))%string /\
   String.length (format_b 20 z) = 20%nat /\
   read_b (format_b 20 z) = Some z).
Proof.
  split; intros Hz.
  - unfold format_b. destruct (Z.ltb_spec z 0); [lia|].
    destruct (bin_of_nonneg_facts z 20 Hz ltac:(lia)) as [Hl Hr].
    destruct (zfill_facts 20 _ z Hl Hr) as [Hl' Hr'].
    split; [exact Hl'|]. split; [exact Hr'|].
    apply read_b_of_bits; [|exact Hr'].
    intros E. rewrite E in Hl'. discriminate.
  - unfold format_b. destruct (Z.ltb_spec z 0); [|lia].
    destruct (Z.ltb_spec (- z) 0); [lia|].
    assert (Hz' : 0 <= - z < 2 ^ Z.of_nat 19) by (change (2 ^ Z.of_nat 19) with (2 ^ 19); lia).
    destruct (bin_of_nonneg_facts (- z) 19 Hz' ltac:(lia)) as [Hl Hr].
    change (20 - 1)%nat with 19%nat.
    destruct (zfill_facts 19 _ (- z) Hl Hr) as [Hl' Hr'].
    split; [reflexivity|]. split; [simpl; rewrite Hl'; reflexivity|].
    cbn [append read_b]. simpl Ascii.eqb. cbv iota. rewrite Hr'. simpl.
    f_equal. lia.
Qed.

Lemma format_b_20_round_trip_witness :
  (0 <= 512 < 2 ^ 20 /\
   String.length (format_b 20 512) = 20%nat /\
   read_bits 0 (format_b 20 512) = Some 512 /\
   read_b (format_b 20 512) = Some 512) /\
  (- 2 ^ 19 < - 256 < 0 /\
   format_b 20 (- 256) = ("-" ++ format_b 19 (- - 256))%string /\
   String.length (format_b 20 (- 256)) = 20%nat /\
   read_b (format_b 20 (- 256)) = Some (- 256)).
Proof.
  assert (H1 : 0 <= 512 < 2 ^ 20) by lia.
  assert (H2 : - 2 ^ 19 < - 256 < 0) by lia.
  split.
  - split; [exact H1|]. exact (proj1 (format_b_20_round_trip 512) H1).
  - split; [exact H2|]. exact (proj2 (format_b_20_round_trip (- 256)) H2).
Defined.

Lemma fixed_point_truncates_witness :
  let f := inject_Z (fixed_point_of (- (1 # 3))) in
  ((0 <= 1 # 3)%Q /\ (- (1 # 3) <= 0)%Q) /\
  ((0 <= - (1 # 3) -> 0 <= f /\ f <= - (1 # 3) * 1024 /\ - (1 # 3) * 1024 < f + 1) /\
   (- (1 # 3) <= 0 -> f <= 0 /\ - (1 # 3) * 1024 <= f /\ f - 1 < - (1 # 3) * 1024))%Q.
Proof.
  intros f. split; [split; lra|].
  exact (fixed_point_truncates (- (1 # 3))).
Defined.

Lemma dict_set_present {V : Type} (d : list (string * V)) (k p : string) (v : V) :
  k = p \/ dict_get String.eqb d p <> None ->
  dict_get String.eqb (dict_set String.eqb d k v) p <> None.
Proof.
  intros H. destruct (String.eqb_spec k p) as [->|Hne].
  - rewrite (dict_get_set_same _ String.eqb_eq). discriminate.
  - rewrite (dict_get_set_other _ String.eqb_eq) by exact Hne.
    destruct H; [contradiction | assumption].
Qed.

Section ExportFacts.
Variable makedirs : string -> outcome unit.
Variable open_w : string -> outcome unit.
Hypothesis open_ok_all : forall p, open_w p = Returned tt.

Lemma export_layer_ok (dir name : string) (q : Quantizer) (files : Files)
  (ix : ndarray Z) (codebook : list Q) :
  dict_get String.eqb (indices q) name = Some ix ->
  dict_get String.eqb (codebooks q) name = Some codebook ->
  export_layer open_w dir name (q, files) =
  (Returned tt,
   (MkQuantizer (num_clusters q) (codebooks q) (indices q)
      (console q
       ++ [[VStr (path_join dir (name ++ "_indices.bin"))]]
       ++ [[VStr (path_join dir (name ++ "_codebook.txt"))]]),
    dict_set String.eqb
      (dict_set String.eqb files (path_join dir (name ++ "_indices.bin"))
         (index_bytes (num_clusters q) ix))
      (path_join dir (name ++ "_codebook.txt"))
      (codebook_lines 0 codebook))).
Proof.
  intros Hi Hc.
  unfold export_layer, bind, get, lift, write_to, export_print, dict_index.
  simpl. rewrite Hi. simpl. rewrite !open_ok_all. simpl. rewrite Hc. simpl.
  rewrite <- app_assoc. reflexivity.
Qed.

Lemma export_layers_ok (dir : string) (names : list string) :
  forall (q : Quantizer) (files : Files),
    (forall n, In n names ->
       dict_get String.eqb (indices q) n <> None /\
       dict_get String.eqb (codebooks q) n <> None) ->
    exists q' files',
      export_layers open_w dir names (q, files) = (Returned tt, (q', files')) /\
      codebooks q' = codebooks q /\ indices q' = indices q /\
      num_clusters q' = num_clusters q /\
      (forall n, In n names ->
         dict_get String.eqb files' (path_join dir (n ++ "_indices.bin")) <> None /\
         dict_get String.eqb files' (path_join dir (n ++ "_codebook.txt")) <> None) /\
      (forall p, dict_get String.eqb files p <> None ->
                 dict_get String.eqb files' p <> None).
Proof.
  induction names as [|n names IH]; intros q files Hall.
  - exists q, files. simpl. unfold ret. repeat split; auto; intros ? [].
  - destruct (Hall n (or_introl eq_refl)) as [Hi Hc].
    destruct (dict_get String.eqb (indices q) n) as [ix|] eqn:Ei; [|congruence].
    destruct (dict_get String.eqb (codebooks q) n) as [cb|] eqn:Ec; [|congruence].
    cbn [export_layers]. unfold bind at 1.
    rewrite (export_layer_ok dir n q files ix cb Ei Ec). cbv beta iota.
    match goal with
    | |- context [export_layers open_w dir names (?q1, ?f1)] =>
        destruct (IH q1 f1) as (q' & files' & Hrun & Hcb & Hix & Hk & Hnew & Hold)
    end.
    { intros m Hm. simpl. apply Hall. right. exact Hm. }
    exists q', files'. simpl in Hcb, Hix, Hk.
    split; [exact Hrun|]. split; [exact Hcb|]. split; [exact Hix|].
    split; [exact Hk|]. split.
    + intros m [<- | Hm]; [|apply Hnew; exact Hm].
      split; apply Hold.
      * apply dict_set_present. right. apply dict_set_present. left. reflexivity.
      * apply dict_set_present. left. reflexivity.
    + intros p Hp. apply Hold.
      apply dict_set_present. right. apply dict_set_present. right. exact Hp.
Qed.

(** X20.  When the directory can be made and every file opened, and the
    layers with a codebook are the layers with an index tensor,
    [save_to_fpga_format] returns; the stored codebooks and indices are
    unchanged; afterwards the index file and the codebook file of every layer
    exist under the output directory, and every file that existed before is
    still there. *)
Theorem save_to_fpga_format_writes (dir : string) (q : Quantizer) (files : Files) :
  makedirs dir = Returned tt ->
  keys (codebooks q) = keys (indices q) ->
  exists q' files',
    save_to_fpga_format makedirs open_w dir (q, files) = (Returned tt, (q', files')) /\
    codebooks q' = codebooks q /\ indices q' = indices q /\
    (forall n, In n (keys (codebooks q)) ->
       dict_get String.eqb files' (path_join dir (n ++ "_indices.bin")) <> None /\
       dict_get String.eqb files' (path_join dir (n ++ "_codebook.txt")) <> None) /\
    (forall p, dict_get String.eqb files p <> None ->
               dict_get String.eqb files' p <> None).
Proof.
  intros Hmk Hpair.
  destruct (export_layers_ok dir (keys (codebooks q)) q files)
    as (q' & files' & Hrun & Hcb & Hix & _ & Hnew & Hold).
  { intros n Hn. split.
    - rewrite Hpair in Hn.
      destruct (dict_get_of_key String.eqb String.eqb_eq _ _ Hn) as [v ->].
      discriminate.
    - destruct (dict_get_of_key String.eqb String.eqb_eq _ _ Hn) as [v ->].
      discriminate. }
  exists q', files'.
  unfold save_to_fpga_format, bind, lift, get. rewrite Hmk. simpl.
  rewrite Hrun. auto.
Qed.
End ExportFacts.

Lemma save_to_fpga_format_writes_witness :
  let q := snd (quantize_layer_weights lloyd_kmeans demo_pw_kernel "conv1_pw"
                  (quantizer_init 2)) in
  (forall p, open_ok p = Returned tt) /\
  open_ok "quantized_weights" = Returned tt /\
  keys (codebooks q) = keys (indices q) /\
  exists q' files',
    save_to_fpga_format open_ok open_ok "quantized_weights" (q, [])
      = (Returned tt, (q', files')) /\
    codebooks q' = codebooks q /\ indices q' = indices q /\
    (forall n, In n (keys (codebooks q)) ->
       dict_get String.eqb files' (path_join "quantized_weights" (n ++ "_indices.bin"))
       <> None /\
       dict_get String.eqb files' (path_join "quantized_weights" (n ++ "_codebook.txt"))
       <> None) /\
    (forall p, dict_get String.eqb ([] : Files) p <> None ->
               dict_get String.eqb files' p <> None).
Proof.
  intros q.
  assert (H1 : forall p, open_ok p = Returned tt) by reflexivity.
  assert (H2 : open_ok "quantized_weights" = Returned tt) by reflexivity.
  assert (H3 : keys (codebooks q) = keys (indices q)) by (vm_compute; reflexivity).
  split; [exact H1|]. split; [exact H2|]. split; [exact H3|].
  exact (save_to_fpga_format_writes open_ok open_ok H1 "quantized_weights" q [] H2 H3).
Defined.

(* ================================================================== *)
(** ** The report *)

Lemma report_rows_totals (items : list (string * layer_info)) :
  forall (text : string) (o p : Z),
    snd (fst (report_rows items text o p))
    = o + 19000 * Z.of_nat (List.length items) /\
    snd (report_rows items text o p)
    = p + 1000 * fold_right Z.add 0 (map (fun x => optimal_bits (snd x)) items).
Proof.
  induction items as [|[n info] items IH]; intros text o p.
  - simpl. split; lia.
  - cbn [report_rows]. destruct (IH (text ++ report_row n info)%string
                                   (o + original_bits * 1000)
                                   (p + optimal_bits info * 1000)) as [H1 H2].
    rewrite H1, H2. cbn [List.length map fold_right snd].
    unfold original_bits. split; lia.
Qed.

Lemma savings_sum (items : list (string * layer_info)) :
  (fold_right Qplus 0 (map (fun x => savings_of (optimal_bits (snd x))) items)
   == inject_Z (Z.of_nat (List.length items)) * 100
      - inject_Z (fold_right Z.add 0%Z (map (fun x => optimal_bits (snd x)) items))
        * (100 / 19))%Q.
Proof.
  induction items as [|[n info] items IH].
  - simpl. reflexivity.
  - cbn [map fold_right List.length snd]. rewrite IH.
    rewrite Nat2Z.inj_succ. unfold Z.succ. rewrite !inject_Z_plus.
    unfold savings_of, original_bits. change (inject_Z 1) with 1%Q.
    change (inject_Z 19) with 19%Q. field.
Qed.

Section ReportFacts.
Variable image : Type.
Variable open_w : string -> outcome unit.

(** X21.  [generate_report] on an analyzer that has analysed no layer
    raises [ZeroDivisionError]: the total of the original bits is 0 when the
    overall savings are computed.  The file is left with the title, the
    table head and no row or summary, and nothing is printed. *)
Theorem generate_report_empty_map (path : string) (a : Analyzer image)
  (files : Files) :
  open_w path = Returned tt ->
  sensitivity_map a = [] ->
  generate_report image open_w path (a, files)
  = (Raised ZeroDivisionError,
     (a, dict_set String.eqb files path (report_header 0 ++ line80 "-")%string)).
Proof.
  intros Hopen Hempty. unfold generate_report. cbn [fst snd].
  rewrite Hopen, Hempty. reflexivity.
Qed.

(** X22.  [generate_report] on an analyzer with at least one analysed layer
    and a path that can be written returns; the file holds the table and a
    summary line whose overall savings equal the plain average of the
    savings of the rows, [(1 - optimal_bits / 19) * 100] each: every layer
    counts the same, whatever its number of weights. *)
Theorem generate_report_overall_is_mean (path : string) (a : Analyzer image)
  (files : Files) :
  open_w path = Returned tt ->
  sensitivity_map a <> [] ->
  exists overall,
    (overall
     == fold_right Qplus 0
          (map (fun x => savings_of (optimal_bits (snd x))) (sensitivity_map a))
        / inject_Z (Z.of_nat (List.length (sensitivity_map a))))%Q /\
    generate_report image open_w path (a, files)
    = (Returned tt,
       (with_stdout image (stdout a ++ [[VStr path]]) a,
        dict_set String.eqb files path
          ((fst (fst (report_rows (sensitivity_map a)
                        (report_header (List.length (sensitivity_map a))) 0 0))
            ++ line80 "-")
           ++ nl ++ "总体存储节省: " ++ format_f 1 overall ++ "%" ++ nl)%string)).
Proof.
  intros Hopen Hne. unfold generate_report. cbn [fst snd]. rewrite Hopen.
  pose proof (report_rows_totals (sensitivity_map a)
                (report_header (List.length (sensitivity_map a))) 0 0) as [Ho Hp].
  destruct (report_rows (sensitivity_map a) _ 0 0) as [[rows o] p].
  cbn [fst snd] in Ho, Hp. subst o p.
  set (n := Z.of_nat (List.length (sensitivity_map a))).
  set (total := fold_right Z.add 0 (map (fun x => optimal_bits (snd x)) (sensitivity_map a))).
  assert (Hn : 0 < n).
  { unfold n. destruct (sensitivity_map a); [congruence | simpl; lia]. }
  unfold true_div. destruct (Z.eqb_spec (0 + 19000 * n) 0) as [E|_]; [lia|].
  eexists. split; [|reflexivity].
  rewrite savings_sum. fold n total.
  assert (HnQ : ~ (inject_Z n == 0)%Q).
  { change 0%Q with (inject_Z 0). rewrite inject_Z_injective. lia. }
  rewrite !Z.add_0_l, !inject_Z_mult.
  change (inject_Z 19000) with 19000%Q. change (inject_Z 1000) with 1000%Q.
  field. exact HnQ.
Qed.
End ReportFacts.

Lemma generate_report_empty_map_witness :
  open_ok default_report_path = Returned tt /\
  sensitivity_map demo_analyzer = [] /\
  generate_report (list Q) open_ok default_report_path (demo_analyzer, [])
  = (Raised ZeroDivisionError,
     (demo_analyzer,
      dict_set String.eqb [] default_report_path
        (report_header 0 ++ line80 "-")%string)).
Proof.
  assert (H1 : open_ok default_report_path = Returned tt) by reflexivity.
  assert (H2 : sensitivity_map demo_analyzer = []) by reflexivity.
  split; [exact H1|]. split; [exact H2|].
  exact (generate_report_empty_map (list Q) open_ok default_report_path
           demo_analyzer [] H1 H2).
Defined.

Lemma generate_report_overall_is_mean_witness :
  let a := snd (analyze_layer (list Q) (linear_predict "conv1") "conv1" (1, 6)
                  demo_analyzer) in
  open_ok default_report_path = Returned tt /\
  sensitivity_map a <> [] /\
  exists overall,
    (overall
     == fold_right Qplus 0
          (map (fun x => savings_of (optimal_bits (snd x))) (sensitivity_map a))
        / inject_Z (Z.of_nat (List.length (sensitivity_map a))))%Q /\
    generate_report (list Q) open_ok default_report_path (a, [])
    = (Returned tt,
       (with_stdout (list Q) (stdout a ++ [[VStr default_report_path]]) a,
        dict_set String.eqb [] default_report_path
          ((fst (fst (report_rows (sensitivity_map a)
                        (report_header (List.length (sensitivity_map a))) 0 0))
            ++ line80 "-")
           ++ nl ++ "总体存储节省: " ++ format_f 1 overall ++ "%" ++ nl)%string)).
Proof.
  intros a.
  assert (H1 : open_ok default_report_path = Returned tt) by reflexivity.
  assert (H2 : sensitivity_map a <> []) by (vm_compute; discriminate).
  split; [exact H1|]. split; [exact H2|].
  exact (generate_report_overall_is_mean (list Q) open_ok default_report_path
           a [] H1 H2).
Defined.

(* ================================================================== *)
(** ** Logarithmic dequantization *)

Section LogDequantFacts.
Variable log2 : Q -> Q.
Variable exp2 : Q -> Q.
Hypothesis log2_mono : forall x y, (1 <= x)%Q -> (x <= y)%Q -> (log2 x <= log2 y)%Q.
Hypothesis log2_one : (log2 1 == 0)%Q.
Hypothesis exp2_proper : forall x y, (x == y)%Q -> (exp2 x == exp2 y)%Q.
Hypothesis exp2_mono : forall x y, (x <= y)%Q -> (exp2 x <= exp2 y)%Q.
Hypothesis exp2_zero : (exp2 0 == 1)%Q.

Lemma log_scale_positive (m : Q) (out_bits : Z) :
  1 <= out_bits -> (0 <= m)%Q ->
  (0 < levels out_bits / (log2 (m + 1) + eps))%Q.
Proof.
  intros Hb Hm. pose proof (levels_ge_1 out_bits Hb) as HL.
  assert (H0 : (0 <= log2 (m + 1))%Q).
  { rewrite <- log2_one. apply log2_mono; lra. }
  apply Qlt_shift_div_l; unfold eps; lra.
Qed.

(** X23.  Decoding keeps the shape, sends the code 0 to the activation 0
    and keeps the order of codes: for [out_bits >= 1] and a non-negative
    [original_max], a larger code never decodes to a smaller activation. *)
Theorem logarithmic_dequantize_monotone (quantized : ndarray Z)
  (original_max : Q) (out_bits : Z) :
  1 <= out_bits -> (0 <= original_max)%Q ->
  let result :=
    logarithmic_dequantize_activation log2 exp2 quantized original_max out_bits in
  shape result = shape quantized /\
  Forall2 (fun c v => c = 0 -> (v == 0)%Q) (data quantized) (data result) /\
  forall i j c1 c2 v1 v2,
    nth_error (data quantized) i = Some c1 ->
    nth_error (data quantized) j = Some c2 ->
    nth_error (data result) i = Some v1 ->
    nth_error (data result) j = Some v2 ->
    c1 <= c2 -> (v1 <= v2)%Q.
Proof.
  intros Hb Hm result.
  pose proof (log_scale_positive original_max out_bits Hb Hm) as Hs.
  unfold result, logarithmic_dequantize_activation, amap. cbn [shape data].
  set (scale := (levels out_bits / (log2 (original_max + 1) + eps))%Q) in *.
  rewrite map_map. split; [reflexivity|]. split.
  - induction (data quantized) as [|c l IH]; cbn [map]; constructor; [|exact IH].
    intros ->. change (inject_Z 0) with 0%Q.
    assert (H0 : (0 / scale == 0)%Q) by (field; lra).
    rewrite (exp2_proper _ _ H0), exp2_zero. ring.
  - intros i j c1 c2 v1 v2 Hi Hj Hvi Hvj Hc.
    rewrite nth_error_map, Hi in Hvi. rewrite nth_error_map, Hj in Hvj.
    simpl in Hvi, Hvj. injection Hvi as <-. injection Hvj as <-.
    assert (Hq : (inject_Z c1 / scale <= inject_Z c2 / scale)%Q).
    { rewrite Zle_Qle in Hc. unfold Qdiv.
      assert (Hi' : (0 < / scale)%Q) by (apply Qinv_lt_0_compat; exact Hs). nra. }
    pose proof (exp2_mono _ _ Hq). lra.
Qed.
End LogDequantFacts.

Lemma exp2_floor_proper (x y : Q) : (x == y)%Q -> (exp2_floor x == exp2_floor y)%Q.
Proof. intros H. unfold exp2_floor. rewrite (Qfloor_comp _ _ H). reflexivity. Qed.

Lemma exp2_floor_mono (x y : Q) : (x <= y)%Q -> (exp2_floor x <= exp2_floor y)%Q.
Proof.
  intros H. unfold exp2_floor. rewrite <- Zle_Qle.
  apply Z.pow_le_mono_r; [lia|]. apply Qfloor_resp_le in H. lia.
Qed.

Lemma logarithmic_dequantize_monotone_witness :
  (forall x y, 1 <= x -> x <= y -> log2_floor x <= log2_floor y)%Q /\
  (log2_floor 1 == 0)%Q /\
  (forall x y, x == y -> exp2_floor x == exp2_floor y)%Q /\
  (forall x y, x <= y -> exp2_floor x <= exp2_floor y)%Q /\
  (exp2_floor 0 == 1)%Q /\
  1 <= 8 /\ (0 <= 100)%Q /\
  let quantized := NdArray [4%nat] [0; 85; 255; 0] in
  let result :=
    logarithmic_dequantize_activation log2_floor exp2_floor quantized 100 8 in
  shape result = shape quantized /\
  Forall2 (fun c v => c = 0 -> (v == 0)%Q) (data quantized) (data result) /\
  forall i j c1 c2 v1 v2,
    nth_error (data quantized) i = Some c1 ->
    nth_error (data quantized) j = Some c2 ->
    nth_error (data result) i = Some v1 ->
    nth_error (data result) j = Some v2 ->
    c1 <= c2 -> (v1 <= v2)%Q.
Proof.
  assert (H1 : (log2_floor 1 == 0)%Q) by reflexivity.
  assert (H2 : (exp2_floor 0 == 1)%Q) by reflexivity.
  assert (H3 : 1 <= 8) by lia.
  assert (H4 : (0 <= 100)%Q) by lra.
  split; [exact log2_floor_mono|]. split; [exact H1|].
  split; [exact exp2_floor_proper|]. split; [exact exp2_floor_mono|].
  split; [exact H2|]. split; [exact H3|]. split; [exact H4|].
  exact (logarithmic_dequantize_monotone log2_floor exp2_floor log2_floor_mono H1
           exp2_floor_proper exp2_floor_mono H2 (NdArray [4%nat] [0; 85; 255; 0])
           100 8 H3 H4).
Defined.

Section LogRoundTrip.
Variable log2 : Q -> Q.
Variable exp2 : Q -> Q.
Hypothesis log2_mono : forall x y, (1 <= x)%Q -> (x <= y)%Q -> (log2 x <= log2 y)%Q.
Hypothesis log2_one : (log2 1 == 0)%Q.
Hypothesis exp2_mono : forall x y, (x <= y)%Q -> (exp2 x <= exp2 y)%Q.

(** X24.  Quantizing and dequantizing an activation, with the maximum of
    the clamped tensor passed as [original_max] and [1 <= out_bits <= 8]:
    the decoded value of an element [x] corresponds to a logarithm within
    half a quantization step, [(log2(max + 1) + eps) / (2 (2^out_bits - 1))],
    of [log2(max(x, 0) + 1)], so it lies between the powers of two of the
    two ends, minus 1. *)
Theorem logarithmic_round_trip (act : ndarray Q) (out_bits : Z)
  (original_max : Q) :
  1 <= out_bits <= 8 ->
  np_max (amap (fun x => Qmax x 0) act) = Returned original_max ->
  exists codes,
    logarithmic_quantize_activation log2 act out_bits = Returned codes /\
    let half := ((log2 (original_max + 1) + eps) / (2 * levels out_bits))%Q in
    Forall2 (fun x v =>
               exp2 (log2 (Qmax x 0 + 1) - half) - 1 <= v /\
               v <= exp2 (log2 (Qmax x 0 + 1) + half) - 1)%Q
      (data act)
      (data (logarithmic_dequantize_activation log2 exp2 codes original_max out_bits)).
Proof.
  intros Hb Hmax.
  set (clamped := amap (fun x => Qmax x 0) act) in *.
  assert (Hcd : data clamped <> []).
  { unfold np_max in Hmax. destruct (data clamped); [discriminate | discriminate]. }
  destruct (np_min_max_bounds clamped Hcd) as (lowest & m & _ & Hmax' & Hall).
  rewrite Hmax in Hmax'. injection Hmax' as <-.
  assert (Hall' : forall x, In x (data act) -> (0 <= Qmax x 0 <= original_max)%Q).
  { intros x Hx. split; [apply Q.le_max_r|].
    rewrite Forall_forall in Hall. apply (Hall (Qmax x 0)).
    unfold clamped, amap. simpl. apply in_map_iff. exists x. auto. }
  assert (Hm0 : (0 <= original_max)%Q).
  { destruct (data act) as [|x xs] eqn:E.
    - unfold clamped, amap in Hcd. simpl in Hcd. rewrite E in Hcd. contradiction.
    - destruct (Hall' x (or_introl eq_refl)). lra. }
  eexists. split.
  { unfold logarithmic_quantize_activation. fold clamped. rewrite Hmax. reflexivity. }
  pose proof (levels_ge_1 out_bits (proj1 Hb)) as HL.
  assert (Ht0 : (0 <= log2 (original_max + 1))%Q).
  { rewrite <- log2_one. apply log2_mono; lra. }
  intros half.
  unfold logarithmic_dequantize_activation, amap, clamped. cbn [data shape].
  rewrite !map_map. unfold amap. cbn [data]. rewrite !map_map.
  set (scale := (levels out_bits / (log2 (original_max + 1) + eps))%Q).
  assert (Hs : (0 < scale)%Q).
  { unfold scale. apply Qlt_shift_div_l; unfold eps; lra. }
  assert (Hpow : 2 ^ out_bits <= 2 ^ 8) by (apply Z.pow_le_mono_r; lia).
  assert (Hgen : forall l, (forall x, In x l -> In x (data act)) ->
            Forall2 (fun x v =>
                       exp2 (log2 (Qmax x 0 + 1) - half) - 1 <= v /\
                       v <= exp2 (log2 (Qmax x 0 + 1) + half) - 1)%Q
              l
              (map (fun x => exp2 (inject_Z
                                     (astype_uint8
                                        (np_round (log2 (Qmax x 0 + 1) * scale)))
                                   / scale) - 1)%Q l)).
  { induction l as [|x l IH]; intros Hsub; cbn [map]; constructor.
    - destruct (Hall' x (Hsub x (or_introl eq_refl))) as [H0 Hm].
      destruct (log_code_range log2 log2_mono log2_one (Qmax x 0) original_max
                  out_bits ltac:(lia) H0 Hm) as [H1 H2].
      cbv zeta in H1, H2. fold scale in H1, H2.
      set (t := log2 (Qmax x 0 + 1)) in *.
      pose proof (np_round_between _ 0 (2 ^ out_bits - 1) H1 H2) as Hr.
      destruct (np_round_near (t * scale)) as [Hn1 Hn2].
      unfold astype_uint8. rewrite Z.mod_small by lia.
      set (r := inject_Z (np_round (t * scale))) in *.
      assert (Hhalf : (half == / scale * (1 # 2))%Q).
      { unfold half, scale. field. split; unfold eps; lra. }
      assert (Hi : (0 < / scale)%Q) by (apply Qinv_lt_0_compat; exact Hs).
      assert (Hinv : (scale * / scale == 1)%Q) by (apply Qmult_inv_r; lra).
      assert (Hlo : (t - half <= r / scale)%Q).
      { rewrite Hhalf. unfold Qdiv. nra. }
      assert (Hhi : (r / scale <= t + half)%Q).
      { rewrite Hhalf. unfold Qdiv. nra. }
      pose proof (exp2_mono _ _ Hlo). pose proof (exp2_mono _ _ Hhi).
      split; lra.
    - apply IH. intros y Hy. apply Hsub. right. exact Hy. }
  apply Hgen. auto.
Qed.
End LogRoundTrip.

Lemma logarithmic_round_trip_witness :
  (forall x y, 1 <= x -> x <= y -> log2_floor x <= log2_floor y)%Q /\
  (log2_floor 1 == 0)%Q /\
  (forall x y, x <= y -> exp2_floor x <= exp2_floor y)%Q /\
  1 <= 8 <= 8 /\
  np_max (amap (fun x => Qmax x 0) demo_activation) = Returned 100%Q /\
  exists codes,
    logarithmic_quantize_activation log2_floor demo_activation 8 = Returned codes /\
    let half := ((log2_floor (100 + 1) + eps) / (2 * levels 8))%Q in
    Forall2 (fun x v =>
               exp2_floor (log2_floor (Qmax x 0 + 1) - half) - 1 <= v /\
               v <= exp2_floor (log2_floor (Qmax x 0 + 1) + half) - 1)%Q
      (data demo_activation)
      (data (logarithmic_dequantize_activation log2_floor exp2_floor codes 100 8)).
Proof.
  assert (H1 : (log2_floor 1 == 0)%Q) by reflexivity.
  assert (H2 : 1 <= 8 <= 8) by lia.
  assert (H3 : np_max (amap (fun x => Qmax x 0) demo_activation) = Returned 100%Q)
    by reflexivity.
  split; [exact log2_floor_mono|]. split; [exact H1|].
  split; [exact exp2_floor_mono|]. split; [exact H2|]. split; [exact H3|].
  exact (logarithmic_round_trip log2_floor exp2_floor log2_floor_mono H1
           exp2_floor_mono demo_activation 8 100 H2 H3).
Defined.

(* ================================================================== *)
(** ** The configuration and the repeated sweep *)

Lemma build_config_entries (P : string * bits_entry -> Prop)
  (items : list (string * layer_info)) :
  (forall name info, In (name, info) items -> P (name, config_entry name info)) ->
  forall config, Forall P config -> Forall P (build_config items config).
Proof.
  induction items as [|[n info] items IH]; intros Hnew config Hc; simpl;
    [exact Hc|].
  apply IH; [intros name i Hin; apply Hnew; right; exact Hin|].
  pose proof (Hnew n info (or_introl eq_refl)) as Hn.
  clear - Hc Hn. induction Hc as [|[k v] config Hk Hc' IHc]; simpl.
  - constructor; [exact Hn | constructor].
  - destruct (String.eqb_spec k n) as [->|Hne]; constructor; auto.
Qed.

(** X25.  In every configuration [generate_mixed_precision_config] returns,
    the activation width of a layer is at least its weight width, and at
    least 8 for a layer whose name contains ["dw"]. *)
Theorem generate_mixed_precision_config_widths (open_w : string -> outcome unit)
  (sensitivity_map : list (string * layer_info)) (path : string)
  (world world' : World) (config : list (string * bits_entry)) :
  generate_mixed_precision_config open_w sensitivity_map path world
    = (Returned config, world') ->
  Forall (fun p => weight (snd p) <= activation (snd p) /\
                   (str_contains "dw" (fst p) = true -> 8 <= activation (snd p)))
    config.
Proof.
  unfold generate_mixed_precision_config, bind, write_file, ret.
  destruct (open_w path); [|discriminate]. intros [= <- _].
  apply build_config_entries; [|constructor].
  intros name info _. unfold config_entry. cbn [fst snd].
  destruct (str_contains "dw" name); cbn [weight activation]; split;
    try discriminate; lia.
Qed.

Lemma generate_mixed_precision_config_widths_witness :
  let r := generate_mixed_precision_config open_ok demo_sensitivity_map
             default_output_path (MkWorld [] []) in
  exists config,
    r = (Returned config, snd r) /\
    Forall (fun p => weight (snd p) <= activation (snd p) /\
                     (str_contains "dw" (fst p) = true -> 8 <= activation (snd p)))
      config.
Proof.
  intros r. eexists.
  assert (H : r = (Returned _, snd r)) by reflexivity.
  split; [exact H|].
  exact (generate_mixed_precision_config_widths open_ok demo_sensitivity_map
           default_output_path (MkWorld [] []) (snd r) _ H).
Defined.

Section Repeat.
Variable image : Type.
Variable predict : Model -> list image -> outcome (list (list Q)).

Abbreviation Analyzer := (Analyzer image).
Abbreviation sweep := (sweep image predict).
Abbreviation analyze_layer := (analyze_layer image predict).

(** The sweep reads the model and the test data only. *)
Lemma sweep_reads_inputs (name : string) (orig : weights) :
  forall (bs : list Z) (c : curve) (a b : Analyzer),
    model a = model b -> test_images a = test_images b ->
    test_labels a = test_labels b ->
    fst (sweep name orig bs c a) = fst (sweep name orig bs c b).
Proof.
  induction bs as [|x bs IH]; intros c a b Hm Hi Hl; [reflexivity|].
  rewrite !sweep_cons.
  destruct (_quantize_weights orig x) as [q|e]; [|reflexivity]. cbv zeta.
  cbn [model]. rewrite Hm, Hi, Hl.
  destruct (accuracy_of image predict _ _ _) as [acc|e]; [|reflexivity].
  apply IH; simpl; congruence.
Qed.

(** X26.  A sweep can be repeated: when [analyze_layer] returns, calling it
    again with the same layer and range on the resulting analyzer returns the
    same [optimal_bits] and curve, and leaves the model and the sensitivity
    map as the first call left them. *)
Theorem analyze_layer_repeatable (name : string) (lo hi : Z) (a a1 : Analyzer)
  (optimal : Z) (c : curve) :
  analyze_layer name (lo, hi) a = (Returned (optimal, c), a1) ->
  exists a2,
    analyze_layer name (lo, hi) a1 = (Returned (optimal, c), a2) /\
    model a2 = model a1 /\ sensitivity_map a2 = sensitivity_map a1.
Proof.
  intros H. apply analyze_layer_returned in H.
  destruct H as (Hm & _ & Hi & Hl & Hs & orig & a' & baseline & Hg & Hsw & Hb & Hsel).
  assert (Hg1 : dict_get String.eqb (model a1) name = Some orig)
    by (rewrite Hm; exact Hg).
  rewrite analyze_layer_run. cbv zeta. rewrite Hg1.
  pose proof (sweep_reads_inputs name orig (range lo (hi + 1)) []
                (with_stdout image (stdout a1 ++ [[VStr name]]) a1)
                (with_stdout image (stdout a ++ [[VStr name]]) a)
                Hm Hi Hl) as Hsame.
  rewrite Hsw in Hsame. cbn [fst] in Hsame.
  destruct (sweep name orig (range lo (hi + 1)) []
              (with_stdout image (stdout a1 ++ [[VStr name]]) a1))
    as [o b1] eqn:Es.
  cbn [fst] in Hsame. subst o.
  pose proof (sweep_spec image predict name orig _ _ _ _ _ Es) as (_ & Hsm & Hmod).
  simpl in Hsm, Hmod.
  unfold dict_index. rewrite Hb, Hsel.
  eexists. split; [reflexivity|]. simpl. split.
  - destruct Hmod as [-> | [q ->]].
    + apply dict_set_same. exact Hg1.
    + rewrite (dict_set_twice _ String.eqb_eq). apply dict_set_same. exact Hg1.
  - rewrite Hsm, Hs. apply (dict_set_twice _ String.eqb_eq).
Qed.
End Repeat.

Lemma analyze_layer_repeatable_witness :
  let r :=
    analyze_layer (list Q) (linear_predict "conv1") "conv1" (1, 6) demo_analyzer in
  let c := [(1, Fin (2 # 4)); (2, Fin (2 # 4)); (3, Fin (2 # 4));
            (4, Fin (4 # 4)); (5, Fin (4 # 4)); (6, Fin (4 # 4))] in
  r = (Returned (4, c), snd r) /\
  exists a2,
    analyze_layer (list Q) (linear_predict "conv1") "conv1" (1, 6) (snd r)
    = (Returned (4, c), a2) /\
    model a2 = model (snd r) /\ sensitivity_map a2 = sensitivity_map (snd r).
Proof.
  intros r c.
  assert (Hrun : r = (Returned (4, c), snd r)) by (vm_compute; reflexivity).
  split; [exact Hrun|].
  exact (analyze_layer_repeatable (list Q) (linear_predict "conv1") "conv1" 1 6
           demo_analyzer (snd r) 4 c Hrun).
Defined.
